(** * Row-cache invalidator (go/vt/tabletserver/rowcache_invalidator.go)

    A shallow embedding of the invalidation service: the per-event
    dispatcher [processEvent] with its deferred recovery, the DML handler
    with its reused typed-value buffer, the retry loop [run], and the
    [Open]/[Close] life cycle.  Collaborators whose code lives in other
    packages (sqltypes, the query engine, the event streamer, the service
    manager) enter as type-class parameters or as small models that are
    marked as such. *)

From stdpp Require Import base strings list gmap.
From Stdlib Require Import ZArith Lia.

Local Open Scope Z_scope.
Local Open Scope string_scope.

(** ** Go values *)

(** int64 arithmetic wraps around. *)
Definition wrap64 (z : Z) : Z := (z + 2 ^ 63) mod 2 ^ 64 - 2 ^ 63.
Definition int64_add (a b : Z) : Z := wrap64 (a + b).
Definition int64_sub (a b : Z) : Z := wrap64 (a - b).

(** A Go [error], by its [Error()] text. *)
Definition error : Type := string.

(** A Go function returning [(T, error)]. *)
Inductive GoResult (A : Type) : Type :=
| RetOk (a : A)
| RetErr (err : error).
Arguments RetOk {A} a.
Arguments RetErr {A} err.

(** The line feed of the format strings. *)
Definition nl : string := String (Ascii.ascii_of_nat 10) EmptyString.

(** A Go slice: a window of [len] elements on a backing array whose
    length is the capacity. *)
Record Slice (A : Type) : Type := mkSlice { backing : list A; len : nat }.
Arguments mkSlice {A} backing len.
Arguments backing {A} s.
Arguments len {A} s.

(** [make([]T, 0, n)] *)
Definition make0 {A} (zero : A) (n : nat) : Slice A :=
  mkSlice (replicate n zero) 0.

(** [s[:0]]: the same backing array, no element visible. *)
Definition truncate0 {A} (s : Slice A) : Slice A :=
  mkSlice (backing s) 0.

(** [append(s, v)]: written in place while capacity remains, otherwise
    the visible elements move to a larger array (how much larger is not
    observable through the slice). *)
Definition append1 {A} (zero : A) (s : Slice A) (v : A) : Slice A :=
  if decide (len s < length (backing s))%nat
  then mkSlice (<[len s := v]> (backing s)) (S (len s))
  else mkSlice (take (len s) (backing s) ++ v :: replicate (len s) zero)
               (S (len s)).

(** What ranging over the slice, or passing it on, shows. *)
Definition elems {A} (s : Slice A) : list A := take (len s) (backing s).

Definition wf_slice {A} (s : Slice A) : Prop :=
  (len s <= length (backing s))%nat.

(** ** Data of the collaborating packages *)

(** [myproto.GTID] is an interface: nil, or a position with a rendering. *)
Inductive GTID : Type :=
| GTIDnil
| GTIDval (repr : string).

(** [myproto.ReplicationPosition], the fields [Open] reads. *)
Record ReplicationPosition : Type := {
  MasterLogFile : string;
  MasterLogPosition : Z;
  MasterLogGTIDField : GTID;
}.

(** [*mysqlctl.Mysqld] as [Open] sees it: the answer of [MasterStatus()]
    and [Cnf().BinLogPath]. *)
Record Mysqld : Type := {
  MasterStatus : GoResult ReplicationPosition;
  BinLogPath : string;
}.

(** [binlog.NewEventStreamer(dbname, mysqld)] *)
Record EventStreamer : Type := {
  es_dbname : string;
  es_mysqld : Mysqld;
}.

(** The categories of [TabletError]. *)
Inductive ErrorCategory : Type := FAIL | RETRY | FATAL | TX_POOL_FULL | NOT_IN_TX.

Record TabletError : Type := {
  ErrorType : ErrorCategory;
  Message : string;
}.

(** [NewTabletError(errorType, format, args...)], the message already
    formatted. *)
Definition NewTabletError (ty : ErrorCategory) (msg : string) : TabletError :=
  {| ErrorType := ty; Message := msg |}.

(** What [recover()] may hand back: a [*TabletError], or any other value
    (a runtime error, say), kept by its description. *)
Inductive PanicValue : Type :=
| PanicTablet (terr : TabletError)
| PanicOther (x : string).

(** Calls on the query engine. *)
Inductive CacheCall : Type :=
| InvalidateForDDL (ddl : string)
| InvalidateForDml (table : string) (keys : list string)
| InvalidateForUnrecognized (sql : string).

Inductive Severity : Type := INFO | ERROR.

(** [sync2.ServiceManager] states. *)
Inductive ServiceState : Type := Stopped | Running.

(** The closure handed to [svm.Go] by [Open]. *)
Record Worker : Type := {
  w_dbname : string;
  w_mysqld : Mysqld;
  w_rp : ReplicationPosition;
}.

(** [sqltypes]: raw column values ([interface{}]), typed values, and the
    decoder, which can fail per value. *)
Class SqlTypes : Type := {
  RawValue : Type;
  Value : Type;
  zeroValue : Value;
  BuildValue : RawValue -> GoResult Value;
}.

(** How a call ends: it returns, or it panics with a value. *)
Inductive Outcome (A : Type) : Type :=
| Normal (a : A)
| Panic (x : PanicValue).
Arguments Normal {A} a.
Arguments Panic {A} x.

Section Model.
Context {ST : SqlTypes}.

(** [blproto.StreamEvent] *)
Record StreamEvent : Type := {
  Category : string;
  TableName : string;
  PKColNames : list string;
  PKValues : list (list RawValue);
  Sql : string;
  Timestamp : Z;
  GTIDField : GTID;
}.

(** Arguments of a log call, kept beside the format string. *)
Inductive LogArg : Type :=
| ArgString (s : string)
| ArgInt (z : Z)
| ArgEvent (event : StreamEvent)
| ArgError (err : error)
| ArgTabletError (terr : TabletError)
| ArgPanic (x : PanicValue)
| ArgStack (skip : Z).

(** What the service does to the outside, in order. *)
Inductive Effect : Type :=
| ELog (sev : Severity) (format : string) (args : list LogArg)
| ECache (call : CacheCall)
| EStream (start : GTID)
| ESleep (nanoseconds : Z)
| EEvsStop
| ESvmStopWait.

(** The [RowcacheInvalidator] fields, the process-wide [internalErrors]
    counters, the goroutines started so far, and the effects so far. *)
Record State : Type := mkState {
  svm : ServiceState;
  workers : list Worker;
  dbname : string;
  mysqld : option Mysqld;
  evs : option EventStreamer;
  lagSeconds : Z;
  gtid : GTID;
  internalErrors : gmap string Z;
  trace : list Effect;
}.

(** The behaviour of the code this file calls into: the key builder of
    the package, whether a query-engine call panics (given what went on
    before it), and the renderings used by the loop-level recovery
    ([%v] of a recovered value, [tb.Stack]). *)
Class Collaborators : Type := {
  buildKey : list Value -> string;
  qe_fault : list Effect -> CacheCall -> option PanicValue;
  fmt_v : PanicValue -> string;
  tb_Stack : Z -> string;
}.

(** ** Computations: state passing, with Go panics *)

Definition M (A : Type) : Type := State -> Outcome A * State.

Definition ret {A} (a : A) : M A := fun s => (Normal a, s).

Definition bind {A B} (c : M A) (k : A -> M B) : M B :=
  fun s => match c s with
           | (Normal a, s1) => k a s1
           | (Panic x, s1) => (Panic x, s1)
           end.

Definition panic {A} (x : PanicValue) : M A := fun s => (Panic x, s).

(** A function body with one deferred call that calls [recover()]: the
    deferred call receives what [recover()] returns (the value of the
    panic in flight, if any) and the result so far (the zero value when
    the body panicked); the panic ends there, and the function returns
    what the deferred call leaves, unless that call panics itself. *)
Definition defer_recover {A} (zero : A)
    (deferred : option PanicValue -> A -> M A) (body : M A) : M A :=
  fun s => match body s with
           | (Normal a, s1) => deferred None a s1
           | (Panic x, s1) => deferred (Some x) zero s1
           end.

End Model.

Notation "x <- c1 ;; c2" := (bind c1 (fun x => c2))
  (at level 100, c1 at next level, right associativity).
Notation "c1 ;; c2" := (bind c1 (fun _ => c2))
  (at level 100, right associativity).

(** ** The service *)

Section Service.
Context {ST : SqlTypes} {CB : Collaborators}.

(** *** Primitive steps *)

Definition emit (e : Effect) : M unit :=
  fun s => (Normal tt,
            mkState (svm s) (workers s) (dbname s) (mysqld s) (evs s)
                    (lagSeconds s) (gtid s) (internalErrors s)
                    (trace s ++ [e])).

(** [log.Infof], [log.Errorf] *)
Definition log_Infof (format : string) (args : list LogArg) : M unit :=
  emit (ELog INFO format args).
Definition log_Errorf (format : string) (args : list LogArg) : M unit :=
  emit (ELog ERROR format args).

(** Modelled from the spec: [stats.Counters.Add] (go/stats is not part of
    the sources at hand): a named int64 counter, created at zero on first
    use, increased atomically. *)
Definition Counters_Add (name : string) (delta : Z)
    (c : gmap string Z) : gmap string Z :=
  <[name := int64_add (default 0 (c !! name)) delta]> c.

Definition internalErrors_Add (name : string) (delta : Z) : M unit :=
  fun s => (Normal tt,
            mkState (svm s) (workers s) (dbname s) (mysqld s) (evs s)
                    (lagSeconds s) (gtid s)
                    (Counters_Add name delta (internalErrors s))
                    (trace s)).

(** [rci.lagSeconds.Set] *)
Definition lagSeconds_Set (v : Z) : M unit :=
  fun s => (Normal tt,
            mkState (svm s) (workers s) (dbname s) (mysqld s) (evs s)
                    v (gtid s) (internalErrors s) (trace s)).

Definition GetGTID : M GTID := fun s => (Normal (gtid s), s).

Definition GetGTIDString : M string :=
  g <- GetGTID ;;
  match g with
  | GTIDnil => ret "<nil>"
  | GTIDval repr => ret repr
  end.

Definition SetGTID (g : GTID) : M unit :=
  fun s => (Normal tt,
            mkState (svm s) (workers s) (dbname s) (mysqld s) (evs s)
                    (lagSeconds s) g (internalErrors s) (trace s)).

(** A call on the query engine: the call is made, and it either returns
    or panics. *)
Definition qe_call (c : CacheCall) : M unit :=
  fun s => match qe_fault (trace s) c with
           | None => emit (ECache c) s
           | Some x => (Panic x, snd (emit (ECache c) s))
           end.

(** [time.Sleep] *)
Definition time_Sleep (d : Z) : M unit := emit (ESleep d).
Definition Second : Z := 1000000000.

(** *** handleInvalidationError *)

Definition handleInvalidationError (event : StreamEvent)
    (recovered : option PanicValue) : M unit :=
  match recovered with
  | Some x =>
      match x with
      | PanicTablet terr =>
          log_Errorf "%v: %+v" [ArgTabletError terr; ArgEvent event] ;;
          internalErrors_Add "Invalidation" 1
      | _ =>
          log_Errorf ("Uncaught panic for %+v:" ++ nl ++ "%v" ++ nl ++ "%s")
                     [ArgEvent event; ArgPanic x; ArgStack 4] ;;
          internalErrors_Add "Panic" 1
      end
  | None => ret tt
  end.

(** *** handleDmlEvent *)

(** The inner loop: the values of one tuple are decoded into the buffer;
    the first failure leaves the loop with the error. *)
Fixpoint decode_tuple (pkTuple : list RawValue) (sqlTypeKeys : Slice Value)
    : GoResult (Slice Value) :=
  match pkTuple with
  | [] => RetOk sqlTypeKeys
  | pkVal :: rest =>
      match BuildValue pkVal with
      | RetErr err => RetErr err
      | RetOk key => decode_tuple rest (append1 zeroValue sqlTypeKeys key)
      end
  end.

(** The body of the outer loop, for one tuple: the buffer is cut back to
    no element, filled, and the key built from it is kept unless empty. *)
Definition dml_body (keys : Slice string) (sqlTypeKeys : Slice Value)
    (pkTuple : list RawValue) : GoResult (Slice string * Slice Value) :=
  match decode_tuple pkTuple (truncate0 sqlTypeKeys) with
  | RetErr err => RetErr err
  | RetOk sqlTypeKeys' =>
      let invalidateKey := buildKey (elems sqlTypeKeys') in
      RetOk (if String.eqb invalidateKey ""
             then keys
             else append1 "" keys invalidateKey,
             sqlTypeKeys')
  end.

(** The outer loop, over the tuples, with the two slices it carries. *)
Fixpoint dml_loop (pkValues : list (list RawValue)) (keys : Slice string)
    (sqlTypeKeys : Slice Value) : GoResult (Slice string * Slice Value) :=
  match pkValues with
  | [] => RetOk (keys, sqlTypeKeys)
  | pkTuple :: rest =>
      match dml_body keys sqlTypeKeys pkTuple with
      | RetErr err => RetErr err
      | RetOk (keys', sqlTypeKeys') => dml_loop rest keys' sqlTypeKeys'
      end
  end.

(** The [return] of the inner loop shows here as the error that left both
    loops; its log line and its count are written where the loops are
    left. *)
Definition handleDmlEvent (event : StreamEvent) : M unit :=
  let table := TableName event in
  let keys := make0 "" (length (PKValues event)) in
  let sqlTypeKeys := make0 zeroValue (length (PKColNames event)) in
  match dml_loop (PKValues event) keys sqlTypeKeys with
  | RetErr err =>
      log_Errorf "Error building invalidation key for %#v: '%v'"
                 [ArgEvent event; ArgError err] ;;
      internalErrors_Add "Invalidation" 1
  | RetOk (keys', _) => qe_call (InvalidateForDml table (elems keys'))
  end.

(** *** processEvent *)

(** The switch; [true] when control reaches the statement after it,
    [false] for the [return] of the default case. *)
Definition processEvent_switch (event : StreamEvent) : M bool :=
  if String.eqb (Category event) "DDL" then
    log_Infof "DDL invalidation: %s" [ArgString (Sql event)] ;;
    qe_call (InvalidateForDDL (Sql event)) ;;
    ret true
  else if String.eqb (Category event) "DML" then
    handleDmlEvent event ;;
    ret true
  else if String.eqb (Category event) "ERR" then
    qe_call (InvalidateForUnrecognized (Sql event)) ;;
    ret true
  else if String.eqb (Category event) "POS" then
    SetGTID (GTIDField event) ;;
    ret true
  else
    log_Errorf "unknown event: %#v" [ArgEvent event] ;;
    internalErrors_Add "Invalidation" 1 ;;
    ret false.

(** The body under the [defer]; [now] is [time.Now().Unix()]. *)
Definition processEvent_body (event : StreamEvent) (now : Z) : M unit :=
  fallthrough <- processEvent_switch event ;;
  if fallthrough : bool
  then lagSeconds_Set (int64_sub now (Timestamp event))
  else ret tt.

Definition processEvent (event : StreamEvent) (now : Z) : M unit :=
  defer_recover tt (fun recovered _ => handleInvalidationError event recovered)
                (processEvent_body event now).

(** *** run *)

(** The callback [run] hands to the streamer. *)
Definition stream_callback (reply : StreamEvent) (now : Z) : M (option error) :=
  processEvent reply now ;;
  ret None.

(** One call of the streamer, as the source decides it: the events it
    delivers (each with the clock reading at its dispatch) and how the
    call ends. *)
Inductive StreamEnding : Type :=
| EndNil
| EndError (err : error)
| EndPanic (x : PanicValue).

Record Session : Type := {
  delivered : list (StreamEvent * Z);
  ending : StreamEnding;
}.

Fixpoint deliver (sendReply : StreamEvent -> Z -> M (option error))
    (events : list (StreamEvent * Z)) : M (option error) :=
  match events with
  | [] => ret None
  | (event, now) :: later =>
      err <- sendReply event now ;;
      match err with
      | Some e => ret (Some e)
      | None => deliver sendReply later
      end
  end.

(** Modelled from the spec: [binlog.EventStreamer.Stream] (go/vt/binlog is
    not part of the sources at hand): given a start position it feeds
    every event to the callback, in order, and blocks until the stream
    ends (nil after [Stop]) or fails; an error of the callback ends it. *)
Definition evs_Stream (session : Session) (start : GTID)
    (sendReply : StreamEvent -> Z -> M (option error)) : M (option error) :=
  emit (EStream start) ;;
  err <- deliver sendReply (delivered session) ;;
  match err with
  | Some e => ret (Some e)
  | None =>
      match ending session with
      | EndNil => ret None
      | EndError e => ret (Some e)
      | EndPanic x => panic x
      end
  end.

(** The function literal of the loop body, with its deferred recovery. *)
Definition run_attempt (source : GTID -> Session) : M (option error) :=
  defer_recover None
    (fun recovered inner =>
       match recovered with
       | Some x =>
           ret (Some (fmt_v x ++ ": uncaught panic:" ++ nl ++ tb_Stack 4))
       | None => ret inner
       end)
    (start <- GetGTID ;; evs_Stream (source start) start stream_callback).

(** The loop.  The list holds what the source does at each successive
    call; [true] when the loop was left, [false] when the list ended with
    the loop still retrying. *)
Fixpoint run (sources : list (GTID -> Session)) : M bool :=
  match sources with
  | [] => ret false
  | source :: later =>
      err <- run_attempt source ;;
      match err with
      | None =>
          log_Infof "Rowcache invalidator stopped" [] ;;
          ret true
      | Some e =>
          log_Errorf
            "binlog.ServeUpdateStream returned err '%v', retrying in 1 second."
            [ArgString e] ;;
          internalErrors_Add "Invalidation" 1 ;;
          time_Sleep (1 * Second) ;;
          run later
      end
  end.

(** *** Open and Close *)

(** Modelled from the spec: [sync2.ServiceManager.Go] (go/sync2 is not
    part of the sources at hand): when the manager is Stopped it becomes
    Running, starts the service function as one worker and answers true;
    when it is Running it starts nothing and answers false. *)
Definition svm_Go (w : Worker) : M bool :=
  fun s => match svm s with
           | Stopped =>
               (Normal true,
                mkState Running (workers s ++ [w]) (dbname s) (mysqld s)
                        (evs s) (lagSeconds s) (gtid s) (internalErrors s)
                        (trace s))
           | Running => (Normal false, s)
           end.

(** Modelled from the spec: [sync2.ServiceManager.Stop]: blocks until the
    worker has left; the wait itself is recorded. *)
Definition svm_Stop : M unit := emit ESvmStopWait.

Definition Open (dbname0 : string) (mysqld0 : Mysqld) : M unit :=
  match MasterStatus mysqld0 with
  | RetErr err =>
      panic (PanicTablet (NewTabletError FATAL
        ("Rowcache invalidator aborting: cannot determine replication position: "
         ++ err)))
  | RetOk rp =>
      if String.eqb (BinLogPath mysqld0) ""
      then panic (PanicTablet (NewTabletError FATAL
             "Rowcache invalidator aborting: binlog path not specified"))
      else
        ok <- svm_Go {| w_dbname := dbname0; w_mysqld := mysqld0; w_rp := rp |} ;;
        if ok : bool
        then log_Infof
               "Rowcache invalidator starting, dbname: %s, path: %s, logfile: %s, position: %d"
               [ArgString dbname0; ArgString (BinLogPath mysqld0);
                ArgString (MasterLogFile rp); ArgInt (MasterLogPosition rp)]
        else log_Infof "Rowcache invalidator already running" []
  end.

Definition Close : M unit :=
  fun s => match evs s with
           | None => log_Infof "Rowcache is not running" [] s
           | Some _ => (emit EEvsStop ;; svm_Stop) s
           end.

(** The service function of [Open], as the worker runs it: the fields
    are set under the lock, the loop runs, and the stream handle is
    cleared when the loop is left.  That the service manager is Stopped
    once the function has returned is modelled from the spec (go/sync2 is
    not part of the sources at hand). *)
Definition worker_enter (w : Worker) : M unit :=
  fun s => (Normal tt,
            mkState (svm s) (workers s) (w_dbname w) (Some (w_mysqld w))
                    (Some {| es_dbname := w_dbname w;
                             es_mysqld := w_mysqld w |})
                    (lagSeconds s) (MasterLogGTIDField (w_rp w))
                    (internalErrors s) (trace s)).

Definition worker_leave : M unit :=
  fun s => (Normal tt,
            mkState Stopped (workers s) (dbname s) (mysqld s) None
                    (lagSeconds s) (gtid s) (internalErrors s) (trace s)).

Definition worker (w : Worker) (sources : list (GTID -> Session)) : M bool :=
  worker_enter w ;;
  left <- run sources ;;
  if left : bool then worker_leave ;; ret true else ret false.

(** *** NewRowcacheInvalidator *)

(** The invalidator as built: every field at its zero value.  The
    process-wide counters are the ones in place; the three
    [stats.Publish] calls only register [svm.StateName], [GetGTIDString]
    and [lagSeconds.Get] under their names. *)
Definition NewRowcacheInvalidator (counters : gmap string Z) : State :=
  mkState Stopped [] "" None None 0 GTIDnil counters [].

End Service.

(** ** What the statements below compare the code with *)

Section Reference.
Context {ST : SqlTypes} {CB : Collaborators}.

(** [vs] are the typed values of the raw tuple [raws]. *)
Definition decodes (raws : list RawValue) (vs : list Value) : Prop :=
  Forall2 (fun raw v => BuildValue raw = RetOk v) raws vs.

(** Some value of some tuple of the event does not decode. *)
Definition decode_fails (pkValues : list (list RawValue)) : Prop :=
  Exists (Exists (fun raw => exists err, BuildValue raw = RetErr err)) pkValues.

(** The keys of the decoded tuples, in row order, the empty ones left out. *)
Definition nonempty_keys (decoded : list (list Value)) : list string :=
  filter (fun k : string => k <> "") (buildKey <$> decoded).

(** The query-engine calls among some effects. *)
Definition cache_calls (es : list Effect) : list CacheCall :=
  omap (fun e => match e with ECache c => Some c | _ => None end) es.

(** The start positions of the stream calls among some effects. *)
Definition stream_starts (es : list Effect) : list GTID :=
  omap (fun e => match e with EStream g => Some g | _ => None end) es.

(** The categories the switch of [processEvent] knows. *)
Definition recognized (category : string) : bool :=
  String.eqb category "DDL" || String.eqb category "DML"
  || String.eqb category "ERR" || String.eqb category "POS".

(** The rest of the invalidator that a step leaves alone. *)
Definition same_service (s s' : State) : Prop :=
  svm s' = svm s /\ workers s' = workers s /\ dbname s' = dbname s
  /\ mysqld s' = mysqld s /\ evs s' = evs s.

(** A computation leaves a projection of the state as it was. *)
Definition preserves {A B} (proj : State -> B) (c : M A) : Prop :=
  forall s, proj (c s).2 = proj s.

(** A computation only adds effects, none of them a stream call. *)
Definition quiet {A} (c : M A) : Prop :=
  forall s, exists tail,
    trace (c s).2 = (trace s ++ tail)%list /\ stream_starts tail = [].

(** How a call of the streamer ends, seen from the loop. *)
Definition attempt_error (session : Session) : option error :=
  match ending session with
  | EndNil => None
  | EndError e => Some e
  | EndPanic x => Some (fmt_v x ++ ": uncaught panic:" ++ nl ++ tb_Stack 4)%string
  end.

(** All events of one stream call handed to [processEvent], in order,
    each with its clock reading. *)
Definition dispatch_all (events : list (StreamEvent * Z)) (s : State) : State :=
  foldl (fun s0 en => (processEvent en.1 en.2 s0).2) s events.

(** The GTID of the last POS event among some events, [g] when there is
    none. *)
Definition last_position (events : list (StreamEvent * Z)) (g : GTID) : GTID :=
  foldl (fun g0 en => if String.eqb (Category en.1) "POS"
                      then GTIDField en.1 else g0) g events.

(** [GTID.String()], with the text [GetGTIDString] gives for nil. *)
Definition position_text (g : GTID) : string :=
  match g with
  | GTIDnil => "<nil>"
  | GTIDval repr => repr
  end.

(** All values of a tuple decoded, or the error of the first that fails. *)
Fixpoint decode_values (raws : list RawValue) : GoResult (list Value) :=
  match raws with
  | [] => RetOk []
  | raw :: rest =>
      match BuildValue raw with
      | RetErr err => RetErr err
      | RetOk v =>
          match decode_values rest with
          | RetErr err => RetErr err
          | RetOk vs => RetOk (v :: vs)
          end
      end
  end.

(** All tuples of an event decoded, or the error of the first value, in
    row order, that fails. *)
Fixpoint decode_rows (rows : list (list RawValue))
    : GoResult (list (list Value)) :=
  match rows with
  | [] => RetOk []
  | row :: rest =>
      match decode_values row with
      | RetErr err => RetErr err
      | RetOk vs =>
          match decode_rows rest with
          | RetErr err => RetErr err
          | RetOk decoded => RetOk (vs :: decoded)
          end
      end
  end.

(** The query-engine calls an event stands for, by its category. *)
Definition expected_calls (event : StreamEvent) : list CacheCall :=
  if String.eqb (Category event) "DDL" then [InvalidateForDDL (Sql event)]
  else if String.eqb (Category event) "DML" then
    match decode_rows (PKValues event) with
    | RetOk decoded =>
        [InvalidateForDml (TableName event) (nonempty_keys decoded)]
    | RetErr _ => []
    end
  else if String.eqb (Category event) "ERR"
  then [InvalidateForUnrecognized (Sql event)]
  else [].

(** The effects of dispatching: log lines and query-engine calls. *)
Definition dispatch_effect (e : Effect) : Prop :=
  match e with
  | ELog _ _ _ | ECache _ => True
  | _ => False
  end.

(** A computation only adds effects, all of them of the kind [P]. *)
Definition only_adds (P : Effect -> Prop) {A} (c : M A) : Prop :=
  forall s, exists tail,
    trace (c s).2 = (trace s ++ tail)%list /\ Forall P tail.

(** The durations of the sleeps among some effects. *)
Definition sleeps (es : list Effect) : list Z :=
  omap (fun e => match e with ESleep d => Some d | _ => None end) es.

End Reference.

(** ** A concrete instance, to run the service on sample events *)

Inductive SampleRaw : Type :=
| RawNil
| RawNumber (digits : string)
| RawText (text : string)
| RawUnsupported (type_name : string).

Inductive SampleValue : Type :=
| Null
| Numeric (digits : string)
| Text (text : string).

Definition sample_BuildValue (raw : SampleRaw) : GoResult SampleValue :=
  match raw with
  | RawNil => RetOk Null
  | RawNumber d => RetOk (Numeric d)
  | RawText t => RetOk (Text t)
  | RawUnsupported ty => RetErr ("Unsupported bind variable type " ++ ty)
  end.

#[export] Instance sample_sqltypes : SqlTypes := {|
  RawValue := SampleRaw;
  Value := SampleValue;
  zeroValue := Null;
  BuildValue := sample_BuildValue;
|}.

(** A sample key builder: no key when a column is null, otherwise the
    renderings joined by dots. *)
Fixpoint sample_buildKey (row : list SampleValue) : string :=
  match row with
  | [] => ""
  | Null :: _ => ""
  | Numeric d :: [] => d
  | Text t :: [] => "'" ++ t ++ "'"
  | Numeric d :: rest =>
      match sample_buildKey rest with "" => "" | k => d ++ "." ++ k end
  | Text t :: rest =>
      match sample_buildKey rest with "" => "" | k => "'" ++ t ++ "'." ++ k end
  end.

(** A sample query engine: it does not know the table [ghost], does not
    understand an empty DDL, and breaks on the statement [crash]. *)
Definition sample_qe_fault (_ : list (@Effect sample_sqltypes))
    (c : CacheCall) : option PanicValue :=
  match c with
  | InvalidateForDDL ddl =>
      if String.eqb ddl ""
      then Some (PanicTablet (NewTabletError FAIL "DDL is not understood"))
      else None
  | InvalidateForDml table _ =>
      if String.eqb table "ghost"
      then Some (PanicTablet (NewTabletError FAIL "Table ghost not found"))
      else None
  | InvalidateForUnrecognized sql =>
      if String.eqb sql "crash"
      then Some (PanicOther "runtime error: invalid memory address")
      else None
  end.

#[export] Instance sample_collaborators : Collaborators := {|
  buildKey := sample_buildKey;
  qe_fault := sample_qe_fault;
  fmt_v := fun x => match x with
                    | PanicTablet terr => Message terr
                    | PanicOther d => d
                    end;
  tb_Stack := fun _ => "goroutine 1 [running]";
|}.

(** A freshly built invalidator, and one whose worker is streaming. *)
Definition fresh : State :=
  mkState Stopped [] "" None None 0 GTIDnil ∅ [].

Definition sample_rp : ReplicationPosition :=
  {| MasterLogFile := "vt-bin.000001";
     MasterLogPosition := 4;
     MasterLogGTIDField := GTIDval "41983-1-10" |}.

Definition sample_mysqld : Mysqld :=
  {| MasterStatus := RetOk sample_rp; BinLogPath := "/vt/bin-logs/vt-bin" |}.

Definition mysqld_down : Mysqld :=
  {| MasterStatus := RetErr "connection refused";
     BinLogPath := "/vt/bin-logs/vt-bin" |}.

Definition mysqld_no_binlog : Mysqld :=
  {| MasterStatus := RetOk sample_rp; BinLogPath := "" |}.

Definition streaming : State :=
  mkState Running
          [{| w_dbname := "vt_test"; w_mysqld := sample_mysqld;
              w_rp := sample_rp |}]
          "vt_test" (Some sample_mysqld)
          (Some {| es_dbname := "vt_test"; es_mysqld := sample_mysqld |})
          0 (GTIDval "41983-1-10") ∅ [].

Definition ev_ddl (sql : string) (ts : Z) : StreamEvent :=
  {| Category := "DDL"; TableName := ""; PKColNames := []; PKValues := [];
     Sql := sql; Timestamp := ts; GTIDField := GTIDnil |}.

Definition ev_dml (table : string) (rows : list (list SampleRaw)) (ts : Z)
    : StreamEvent :=
  {| Category := "DML"; TableName := table; PKColNames := ["id"];
     PKValues := rows; Sql := ""; Timestamp := ts; GTIDField := GTIDnil |}.

Definition ev_err (sql : string) (ts : Z) : StreamEvent :=
  {| Category := "ERR"; TableName := ""; PKColNames := []; PKValues := [];
     Sql := sql; Timestamp := ts; GTIDField := GTIDnil |}.

Definition ev_pos (g : GTID) : StreamEvent :=
  {| Category := "POS"; TableName := ""; PKColNames := []; PKValues := [];
     Sql := ""; Timestamp := 0; GTIDField := g |}.

Definition ev_other (category : string) (ts : Z) : StreamEvent :=
  {| Category := category; TableName := ""; PKColNames := [];
     PKValues := []; Sql := ""; Timestamp := ts; GTIDField := GTIDnil |}.

(** A source that loses the connection after a position event, then
    breaks with a panic, then is stopped by [Close]. *)
Definition flaky : list (GTID -> Session) :=
  [ (fun _ => {| delivered := [(ev_dml "users" [[RawNumber "1"]] 100, 130);
                               (ev_pos (GTIDval "41983-1-11"), 131)];
                 ending := EndError "connection lost" |});
    (fun _ => {| delivered := []; ending := EndPanic (PanicOther "boom") |});
    (fun _ => {| delivered := [(ev_pos (GTIDval "41983-1-12"), 140)];
                 ending := EndNil |});
    (fun _ => {| delivered := []; ending := EndNil |}) ].

(** The three behaviours of the flaky source, one by one. *)
Definition source_lost (_ : GTID) : Session :=
  {| delivered := [(ev_dml "users" [[RawNumber "1"]] 100, 130);
                   (ev_pos (GTIDval "41983-1-11"), 131)];
     ending := EndError "connection lost" |}.

Definition source_broken (_ : GTID) : Session :=
  {| delivered := []; ending := EndPanic (PanicOther "boom") |}.

Definition source_stopped (_ : GTID) : Session :=
  {| delivered := [(ev_pos (GTIDval "41983-1-12"), 140)]; ending := EndNil |}.

(** A DML event whose second row fails at its second value. *)
Definition ev_half_decoded : StreamEvent :=
  ev_dml "users"
         [[RawNumber "1"];
          [RawNumber "2"; RawUnsupported "chan int"; RawUnsupported "func()"];
          [RawUnsupported "map[string]int"]] 100.

Local Open Scope list_scope.

(** ** Slices *)

Section SliceFacts.
Context {A : Type}.
Implicit Types (s : Slice A) (v zero : A).

Lemma wf_make0 zero n : wf_slice (make0 zero n).
Proof. unfold wf_slice, make0; simpl. lia. Qed.

Lemma elems_make0 zero n : elems (make0 zero n) = [].
Proof. reflexivity. Qed.

Lemma wf_truncate0 s : wf_slice (truncate0 s).
Proof. unfold wf_slice, truncate0; simpl. lia. Qed.

Lemma elems_truncate0 s : elems (truncate0 s) = [].
Proof. reflexivity. Qed.

Lemma wf_append1 zero s v : wf_slice s -> wf_slice (append1 zero s v).
Proof.
  unfold wf_slice, append1. intros Hwf.
  destruct (decide (len s < length (backing s))%nat) as [Hlt|Hge]; simpl.
  - rewrite length_insert. lia.
  - rewrite length_app, length_take. simpl. lia.
Qed.

Lemma elems_append1 zero s v :
  wf_slice s -> elems (append1 zero s v) = elems s ++ [v].
Proof.
  unfold wf_slice, append1, elems. intros Hwf.
  destruct (decide (len s < length (backing s))%nat) as [Hlt|Hge]; simpl.
  - rewrite (take_S_r _ _ v) by (apply list_lookup_insert_eq; lia).
    rewrite take_insert_ge by lia. reflexivity.
  - assert (Hlen : length (take (len s) (backing s)) = len s)
      by (rewrite length_take; lia).
    rewrite <- Hlen at 1.
    change (take (len s) (backing s) ++ v :: replicate (len s) zero)
      with (take (len s) (backing s) ++ [v] ++ replicate (len s) zero).
    rewrite app_assoc.
    replace (S (length (take (len s) (backing s))))
      with (length (take (len s) (backing s) ++ [v]))
      by (rewrite length_app; simpl; lia).
    apply take_app_length.
Qed.

End SliceFacts.

(** ** The DML loops *)

Section Proofs.
Context {ST : SqlTypes} {CB : Collaborators}.

Lemma decode_tuple_ok (pkTuple : list RawValue) (vs : list Value)
    (buf : Slice Value) :
  decodes pkTuple vs -> wf_slice buf ->
  exists buf', decode_tuple pkTuple buf = RetOk buf'
            /\ wf_slice buf' /\ elems buf' = elems buf ++ vs.
Proof.
  intros Hdec. revert buf.
  induction Hdec as [|raw v raws vs Hv _ IH]; intros buf Hwf; simpl.
  - exists buf. rewrite app_nil_r. auto.
  - rewrite Hv.
    destruct (IH (append1 zeroValue buf v)) as (buf' & Hrun & Hwf' & Hel).
    { by apply wf_append1. }
    exists buf'. split; [done|]. split; [done|].
    rewrite Hel, elems_append1 by done. by rewrite <- app_assoc.
Qed.

Lemma decode_tuple_err (pkTuple : list RawValue) (buf : Slice Value)
    (err : error) :
  decode_tuple pkTuple buf = RetErr err ->
  exists raw, raw ∈ pkTuple /\ BuildValue raw = RetErr err.
Proof.
  revert buf. induction pkTuple as [|raw raws IH]; intros buf; simpl.
  - discriminate.
  - destruct (BuildValue raw) as [v|e] eqn:Hraw.
    + intros Hrest. destruct (IH _ Hrest) as (raw' & Hin & Hbad).
      exists raw'. split; [by apply list_elem_of_further|done].
    + intros [= ->]. exists raw. split; [apply list_elem_of_here|done].
Qed.

Lemma decode_tuple_fails (pkTuple : list RawValue) (buf : Slice Value) :
  Exists (fun raw => exists err, BuildValue raw = RetErr err) pkTuple ->
  exists err, decode_tuple pkTuple buf = RetErr err.
Proof.
  intros Hex. revert buf.
  induction Hex as [raw raws [err Herr]|raw raws _ IH]; intros buf; simpl.
  - rewrite Herr. eauto.
  - destruct (BuildValue raw) as [v|e]; eauto.
Qed.

Lemma dml_body_ok (keys : Slice string) (buf : Slice Value)
    (pkTuple : list RawValue) (vs : list Value) :
  decodes pkTuple vs ->
  exists buf',
    dml_body keys buf pkTuple
    = RetOk (if String.eqb (buildKey vs) "" then keys
             else append1 "" keys (buildKey vs), buf')
    /\ elems buf' = vs.
Proof.
  intros Hdec. unfold dml_body.
  destruct (decode_tuple_ok pkTuple vs (truncate0 buf) Hdec (wf_truncate0 buf))
    as (buf' & -> & _ & Hel).
  rewrite elems_truncate0 in Hel. simpl in Hel.
  exists buf'. by rewrite Hel.
Qed.

Lemma dml_loop_app (l1 l2 : list (list RawValue)) (keys : Slice string)
    (buf : Slice Value) :
  dml_loop (l1 ++ l2) keys buf
  = match dml_loop l1 keys buf with
    | RetErr err => RetErr err
    | RetOk (keys', buf') => dml_loop l2 keys' buf'
    end.
Proof.
  revert keys buf. induction l1 as [|t l1 IH]; intros keys buf; simpl.
  - reflexivity.
  - destruct (dml_body keys buf t) as [[keys' buf']|err]; [apply IH|done].
Qed.

Lemma nonempty_keys_cons (vs : list Value) (decoded : list (list Value)) :
  nonempty_keys (vs :: decoded)
  = (if String.eqb (buildKey vs) "" then [] else [buildKey vs])
    ++ nonempty_keys decoded.
Proof.
  unfold nonempty_keys. rewrite fmap_cons, filter_cons.
  destruct (String.eqb_spec (buildKey vs) "") as [Heq|Hne].
  - rewrite decide_False by (intros H; by apply H). done.
  - by rewrite decide_True.
Qed.

Lemma dml_loop_ok (pkValues : list (list RawValue))
    (decoded : list (list Value)) (keys : Slice string) (buf : Slice Value) :
  Forall2 decodes pkValues decoded -> wf_slice keys ->
  exists keys' buf',
    dml_loop pkValues keys buf = RetOk (keys', buf')
    /\ wf_slice keys'
    /\ elems keys' = elems keys ++ nonempty_keys decoded.
Proof.
  intros Hall. revert keys buf.
  induction Hall as [|t vs ts decoded Ht _ IH]; intros keys buf Hwf; simpl.
  - exists keys, buf. unfold nonempty_keys; simpl. by rewrite app_nil_r.
  - destruct (dml_body_ok keys buf t vs Ht) as (buf1 & -> & _).
    rewrite nonempty_keys_cons.
    destruct (String.eqb (buildKey vs) "").
    + destruct (IH keys buf1 Hwf) as (keys' & buf' & Hrun & Hwf' & Hel).
      exists keys', buf'. by rewrite Hrun, Hel.
    + destruct (IH (append1 "" keys (buildKey vs)) buf1)
        as (keys' & buf' & Hrun & Hwf' & Hel).
      { by apply wf_append1. }
      exists keys', buf'. rewrite Hrun, Hel, elems_append1 by done.
      by rewrite <- app_assoc.
Qed.

Lemma dml_loop_err (pkValues : list (list RawValue)) (keys : Slice string)
    (buf : Slice Value) (err : error) :
  dml_loop pkValues keys buf = RetErr err ->
  exists pkTuple raw,
    pkTuple ∈ pkValues /\ raw ∈ pkTuple /\ BuildValue raw = RetErr err.
Proof.
  revert keys buf. induction pkValues as [|t ts IH]; intros keys buf; simpl.
  - discriminate.
  - unfold dml_body.
    destruct (decode_tuple t (truncate0 buf)) as [buf1|e] eqn:Ht.
    + intros Hrest. destruct (IH _ _ Hrest) as (t' & raw & Hin & Hraw & Hbad).
      exists t', raw. split; [by apply list_elem_of_further|done].
    + intros [= ->]. destruct (decode_tuple_err _ _ _ Ht) as (raw & Hin & Hbad).
      exists t, raw. split; [apply list_elem_of_here|done].
Qed.

Lemma dml_loop_fails (pkValues : list (list RawValue)) (keys : Slice string)
    (buf : Slice Value) :
  decode_fails pkValues -> exists err, dml_loop pkValues keys buf = RetErr err.
Proof.
  intros Hex. revert keys buf.
  induction Hex as [t ts Ht|t ts _ IH]; intros keys buf; simpl; unfold dml_body.
  - destruct (decode_tuple_fails t (truncate0 buf) Ht) as [err ->]. eauto.
  - destruct (decode_tuple t (truncate0 buf)) as [buf1|e]; eauto.
Qed.

(** ** int64 and counters *)

Lemma wrap64_small (z : Z) : (- 2 ^ 63 <= z < 2 ^ 63)%Z -> wrap64 z = z.
Proof.
  intros Hz. unfold wrap64.
  rewrite Z.mod_small by lia. lia.
Qed.

Lemma Counters_Add_lookup (name : string) (delta : Z) (c : gmap string Z) :
  Counters_Add name delta c !! name
  = Some (int64_add (default 0%Z (c !! name)) delta).
Proof. unfold Counters_Add. apply lookup_insert_eq. Qed.


(** ** Running the primitive steps *)

Ltac run_steps :=
  unfold bind, ret, panic, log_Infof, log_Errorf, internalErrors_Add,
    lagSeconds_Set, SetGTID, GetGTID, time_Sleep, emit; simpl.

Lemma qe_call_run (c : CacheCall) (s : State) :
  exists s', qe_call c s
             = (match qe_fault (trace s) c with
                | None => Normal tt
                | Some x => Panic x
                end, s')
    /\ trace s' = trace s ++ [ECache c]
    /\ internalErrors s' = internalErrors s
    /\ gtid s' = gtid s /\ lagSeconds s' = lagSeconds s
    /\ same_service s s'.
Proof.
  unfold qe_call, same_service.
  destruct (qe_fault (trace s) c); run_steps; eexists; repeat split.
Qed.

(** C2: when every primary-key value of a DML event decodes,
    [handleDmlEvent] makes exactly one query-engine call,
    [InvalidateForDml] on the event's table, with the non-empty keys of
    the tuples in row order; the call is made whatever the number of
    keys, and nothing else is logged, counted or changed. *)
Theorem handleDmlEvent_one_call (event : StreamEvent)
    (decoded : list (list Value)) (s : State) :
  Forall2 decodes (PKValues event) decoded ->
  exists r s',
    handleDmlEvent event s = (r, s')
    /\ trace s'
       = trace s
         ++ [ECache (InvalidateForDml (TableName event)
                                      (nonempty_keys decoded))]
    /\ cache_calls (trace s')
       = cache_calls (trace s)
         ++ [InvalidateForDml (TableName event) (nonempty_keys decoded)]
    /\ internalErrors s' = internalErrors s
    /\ gtid s' = gtid s /\ lagSeconds s' = lagSeconds s.
Proof.
  intros Hall. unfold handleDmlEvent.
  destruct (dml_loop_ok (PKValues event) decoded
              (make0 "" (length (PKValues event)))
              (make0 zeroValue (length (PKColNames event))) Hall
              (wf_make0 _ _))
    as (keys' & buf' & -> & _ & Hel).
  rewrite elems_make0 in Hel. simpl in Hel. rewrite Hel.
  destruct (qe_call_run (InvalidateForDml (TableName event)
                                          (nonempty_keys decoded)) s)
    as (s' & -> & Htr & Hc & Hg & Hl & _).
  eexists _, s'. split; [reflexivity|].
  split; [done|]. split; [|done].
  rewrite Htr. unfold cache_calls. by rewrite omap_app.
Qed.

(** C3: when some value of some primary-key tuple of a DML event does not
    decode, [handleDmlEvent] returns after logging that decoding error
    with the event and adding one to the Invalidation counter; no
    query-engine call is made for any tuple of the event. *)
Theorem handleDmlEvent_aborts (event : StreamEvent) (s : State) :
  decode_fails (PKValues event) ->
  exists err s',
    handleDmlEvent event s = (Normal tt, s')
    /\ (exists pkTuple raw, pkTuple ∈ PKValues event /\ raw ∈ pkTuple
                            /\ BuildValue raw = RetErr err)
    /\ trace s'
       = trace s
         ++ [ELog ERROR "Error building invalidation key for %#v: '%v'"
                  [ArgEvent event; ArgError err]]
    /\ cache_calls (trace s') = cache_calls (trace s)
    /\ internalErrors s' = Counters_Add "Invalidation" 1 (internalErrors s)
    /\ gtid s' = gtid s /\ lagSeconds s' = lagSeconds s.
Proof.
  intros Hbad. unfold handleDmlEvent.
  destruct (dml_loop_fails (PKValues event)
              (make0 "" (length (PKValues event)))
              (make0 zeroValue (length (PKColNames event))) Hbad)
    as [err Herr].
  rewrite Herr. exists err. run_steps. eexists. split; [reflexivity|].
  split; [by eapply dml_loop_err|]. simpl.
  repeat split. unfold cache_calls. rewrite omap_app. simpl.
  by rewrite app_nil_r.
Qed.

(** C10: in the loop of [handleDmlEvent], whatever the earlier tuples of
    the event left in the reused buffer, the body run on a tuple presents
    exactly that tuple's decoded values to the key builder: the key kept
    is the key of those values, and the buffer then shows them alone. *)
Theorem dml_key_of_own_values (before : list (list RawValue))
    (pkTuple : list RawValue) (vs : list Value)
    (keys0 keys : Slice string) (buf0 buf : Slice Value) :
  dml_loop before keys0 buf0 = RetOk (keys, buf) ->
  decodes pkTuple vs ->
  exists buf',
    dml_body keys buf pkTuple
    = RetOk (if String.eqb (buildKey vs) "" then keys
             else append1 "" keys (buildKey vs), buf')
    /\ elems buf' = vs
    /\ dml_loop (before ++ [pkTuple]) keys0 buf0
       = RetOk (if String.eqb (buildKey vs) "" then keys
                else append1 "" keys (buildKey vs), buf').
Proof.
  intros Hbefore Hdec.
  destruct (dml_body_ok keys buf pkTuple vs Hdec) as (buf' & Hbody & Hel).
  exists buf'. split; [done|]. split; [done|].
  rewrite dml_loop_app, Hbefore. simpl. by rewrite Hbody.
Qed.

(** ** Frames: what a computation leaves alone *)

Lemma preserves_bind {A B C} (proj : State -> C) (c : M A) (k : A -> M B) :
  preserves proj c -> (forall a, preserves proj (k a)) ->
  preserves proj (bind c k).
Proof.
  intros Hc Hk s. unfold bind. specialize (Hc s).
  destruct (c s) as [[a|x] s1]; simpl in *; [|done].
  by rewrite Hk.
Qed.

Lemma preserves_defer_recover {A C} (proj : State -> C) (zero : A)
    (deferred : option PanicValue -> A -> M A) (body : M A) :
  preserves proj body -> (forall r a, preserves proj (deferred r a)) ->
  preserves proj (defer_recover zero deferred body).
Proof.
  intros Hb Hd s. unfold defer_recover. specialize (Hb s).
  destruct (body s) as [[a|x] s1]; simpl in *; by rewrite Hd.
Qed.

Lemma preserves_qe_call {C} (proj : State -> C) (c : CacheCall) :
  (forall e, preserves proj (emit e)) -> preserves proj (qe_call c).
Proof.
  intros He s. unfold qe_call.
  destruct (qe_fault (trace s) c); [|apply He]. simpl. apply (He _ s).
Qed.

Ltac frame :=
  repeat first
    [ apply preserves_bind; [|intros ?]
    | apply preserves_defer_recover; [|intros ? ?]
    | apply preserves_qe_call; intros ?
    | solve [repeat intro; reflexivity]
    | match goal with |- preserves _ (if ?b then _ else _) => destruct b end
    | match goal with |- preserves _ (match ?x with _ => _ end) => destruct x end ].

Lemma handleDmlEvent_preserves_gtid (event : StreamEvent) :
  preserves gtid (handleDmlEvent event).
Proof. unfold handleDmlEvent. frame. Qed.

Lemma handleDmlEvent_preserves_lag (event : StreamEvent) :
  preserves lagSeconds (handleDmlEvent event).
Proof. unfold handleDmlEvent. frame. Qed.

Lemma handleInvalidationError_preserves_gtid (event : StreamEvent)
    (recovered : option PanicValue) :
  preserves gtid (handleInvalidationError event recovered).
Proof. unfold handleInvalidationError. frame. Qed.

Lemma handleInvalidationError_preserves_lag (event : StreamEvent)
    (recovered : option PanicValue) :
  preserves lagSeconds (handleInvalidationError event recovered).
Proof. unfold handleInvalidationError. frame. Qed.

Lemma processEvent_switch_preserves_lag (event : StreamEvent) :
  preserves lagSeconds (processEvent_switch event).
Proof.
  unfold processEvent_switch.
  repeat match goal with
         | |- preserves _ (if ?b then _ else _) => destruct b
         end.
  1,3-5: frame.
  apply preserves_bind; [apply handleDmlEvent_preserves_lag|]. frame.
Qed.

Lemma processEvent_never_panics (event : StreamEvent) (now : Z) (s : State) :
  (processEvent event now s).1 = Normal tt.
Proof.
  unfold processEvent, defer_recover.
  destruct (processEvent_body event now s) as [[[]|[terr|x]] s1]; reflexivity.
Qed.

(** ** The dispatcher *)

Lemma processEvent_switch_preserves_gtid (event : StreamEvent) :
  Category event <> "POS" -> preserves gtid (processEvent_switch event).
Proof.
  intros Hcat. unfold processEvent_switch.
  destruct (String.eqb_spec (Category event) "POS") as [|_]; [done|].
  repeat match goal with
         | |- preserves _ (if ?b then _ else _) => destruct b
         end.
  1,3-4: frame.
  apply preserves_bind; [apply handleDmlEvent_preserves_gtid|]. frame.
Qed.

Lemma unrecognized_tests (category : string) :
  recognized category = false ->
  String.eqb category "DDL" = false /\ String.eqb category "DML" = false
  /\ String.eqb category "ERR" = false /\ String.eqb category "POS" = false.
Proof.
  unfold recognized. intros H.
  apply orb_false_elim in H as [H Hpos].
  apply orb_false_elim in H as [H Herr].
  apply orb_false_elim in H as [Hddl Hdml]. auto.
Qed.

Lemma recognized_switch (event : StreamEvent) (s : State) (s1 : State)
    (fallthrough : bool) :
  recognized (Category event) = true ->
  processEvent_switch event s = (Normal fallthrough, s1) ->
  fallthrough = true.
Proof.
  unfold recognized, processEvent_switch. intros Hrec.
  destruct (String.eqb (Category event) "DDL");
    [|destruct (String.eqb (Category event) "DML");
      [|destruct (String.eqb (Category event) "ERR");
        [|destruct (String.eqb (Category event) "POS"); [|done]]]];
    unfold bind;
    repeat match goal with
           | |- context [match ?c s with _ => _ end] =>
               destruct (c s) as [[?|?] ?]
           | |- context [match ?c ?t with _ => _ end] =>
               destruct (c t) as [[?|?] ?]
           end;
    unfold ret; congruence.
Qed.

(** C1: whatever happens while the body of [processEvent] handles an
    event, [processEvent] returns normally and the stream callback
    answers nil.  A panic of the body with a [*TabletError] is logged
    with the event and adds one to the Invalidation counter; a panic
    with any other value is logged with the event and a stack trace and
    adds one to the Panic counter; nothing else changes. *)
Theorem processEvent_recovers (event : StreamEvent) (now : Z) (s : State) :
  exists s',
    processEvent event now s = (Normal tt, s')
    /\ stream_callback event now s = (Normal None, s')
    /\ match processEvent_body event now s with
       | (Normal _, s1) => s' = s1
       | (Panic (PanicTablet terr), s1) =>
           trace s'
           = trace s1
             ++ [ELog ERROR "%v: %+v" [ArgTabletError terr; ArgEvent event]]
           /\ internalErrors s'
              = Counters_Add "Invalidation" 1 (internalErrors s1)
           /\ gtid s' = gtid s1 /\ lagSeconds s' = lagSeconds s1
           /\ same_service s1 s'
       | (Panic (PanicOther x), s1) =>
           trace s'
           = trace s1
             ++ [ELog ERROR
                   ("Uncaught panic for %+v:" ++ nl ++ "%v" ++ nl ++ "%s")%string
                   [ArgEvent event; ArgPanic (PanicOther x); ArgStack 4]]
           /\ internalErrors s' = Counters_Add "Panic" 1 (internalErrors s1)
           /\ gtid s' = gtid s1 /\ lagSeconds s' = lagSeconds s1
           /\ same_service s1 s'
       end.
Proof.
  unfold stream_callback, processEvent, defer_recover, same_service.
  unfold bind at 1.
  destruct (processEvent_body event now s) as [[[]|[terr|x]] s1];
    run_steps; eexists; repeat split.
Qed.

(** C5: dispatching a POS event sets the tracked position to the GTID of
    the event and does nothing to the cache, the log or the counters;
    dispatching an event of any other category, known or not, leaves the
    tracked position as it was. *)
Theorem processEvent_position (event : StreamEvent) (now : Z) (s : State) :
  (Category event = "POS" ->
   gtid (processEvent event now s).2 = GTIDField event
   /\ trace (processEvent event now s).2 = trace s
   /\ internalErrors (processEvent event now s).2 = internalErrors s)
  /\ (Category event <> "POS" ->
      gtid (processEvent event now s).2 = gtid s).
Proof.
  split.
  - intros Hcat. unfold processEvent, defer_recover, processEvent_body,
      processEvent_switch. rewrite Hcat. simpl. run_steps. done.
  - intros Hcat.
    assert (H : preserves gtid (processEvent event now)); [|apply H].
    unfold processEvent, processEvent_body.
    apply preserves_defer_recover;
      [|intros; apply handleInvalidationError_preserves_gtid].
    apply preserves_bind;
      [by apply processEvent_switch_preserves_gtid|].
    intros []; frame.
Qed.

Lemma processEvent_body_lag (event : StreamEvent) (now : Z) (s : State) :
  recognized (Category event) = true ->
  match processEvent_body event now s with
  | (Normal _, s1) => lagSeconds s1 = int64_sub now (Timestamp event)
  | (Panic _, s1) => lagSeconds s1 = lagSeconds s
  end.
Proof.
  intros Hrec. unfold processEvent_body, bind.
  pose proof (processEvent_switch_preserves_lag event s) as Hlag.
  destruct (processEvent_switch event s) as [[fallthrough|x] s1] eqn:Hsw;
    simpl in Hlag; [|done].
  by rewrite (recognized_switch event s s1 fallthrough Hrec Hsw).
Qed.

(** C8, as the code has it: an event of a category other than DDL, DML,
    ERR and POS is logged as unknown and counted, with no query-engine
    call, no change of position and no change of the lag; an event of a
    known category sets the lag to now minus its timestamp (int64, no
    clamping) when its handling returns, and leaves the lag as it was
    when its handling panics. *)
Theorem processEvent_lag (event : StreamEvent) (now : Z) (s : State) :
  (recognized (Category event) = false ->
   processEvent event now s
   = (Normal tt,
      mkState (svm s) (workers s) (dbname s) (mysqld s) (evs s)
              (lagSeconds s) (gtid s)
              (Counters_Add "Invalidation" 1 (internalErrors s))
              (trace s ++ [ELog ERROR "unknown event: %#v" [ArgEvent event]])))
  /\ (recognized (Category event) = true ->
      match (processEvent_body event now s).1 with
      | Normal _ =>
          lagSeconds (processEvent event now s).2
          = int64_sub now (Timestamp event)
          /\ ((- 2 ^ 63 <= now - Timestamp event < 2 ^ 63)%Z ->
              lagSeconds (processEvent event now s).2
              = (now - Timestamp event)%Z)
      | Panic _ => lagSeconds (processEvent event now s).2 = lagSeconds s
      end).
Proof.
  split.
  - intros Hun. apply unrecognized_tests in Hun as (H1 & H2 & H3 & H4).
    unfold processEvent, defer_recover, processEvent_body,
      processEvent_switch.
    rewrite H1, H2, H3, H4. reflexivity.
  - intros Hrec. unfold processEvent, defer_recover.
    pose proof (processEvent_body_lag event now s Hrec) as Hbody.
    destruct (processEvent_body event now s) as [[[]|x] s1]; cbn [fst].
    + split; [done|]. intros Hrange. cbn. rewrite Hbody. unfold int64_sub.
      by apply wrap64_small.
    + by rewrite (handleInvalidationError_preserves_lag event (Some x) s1).
Qed.

Lemma handleDmlEvent_abort_run (event : StreamEvent) (s : State) :
  decode_fails (PKValues event) ->
  exists err,
    (exists pkTuple raw, pkTuple ∈ PKValues event /\ raw ∈ pkTuple
                         /\ BuildValue raw = RetErr err)
    /\ handleDmlEvent event s
       = (Normal tt,
          mkState (svm s) (workers s) (dbname s) (mysqld s) (evs s)
                  (lagSeconds s) (gtid s)
                  (Counters_Add "Invalidation" 1 (internalErrors s))
                  (trace s
                   ++ [ELog ERROR
                         "Error building invalidation key for %#v: '%v'"
                         [ArgEvent event; ArgError err]])).
Proof.
  intros Hbad. unfold handleDmlEvent.
  destruct (dml_loop_fails (PKValues event)
              (make0 "" (length (PKValues event)))
              (make0 zeroValue (length (PKColNames event))) Hbad)
    as [err Herr].
  rewrite Herr. exists err. split; [by eapply dml_loop_err|]. reflexivity.
Qed.

Lemma cache_calls_log (es : list Effect) (sev : Severity) (format : string)
    (args : list LogArg) :
  cache_calls (es ++ [ELog sev format args]) = cache_calls es.
Proof. unfold cache_calls. rewrite omap_app. simpl. by rewrite app_nil_r. Qed.

(** C9: a DML event with a primary-key value that does not decode still
    has the lag set to now minus its timestamp: the handler returns after
    counting the error, without a query-engine call, and the dispatcher
    goes on to the lag update. *)
Theorem dml_decode_failure_sets_lag (event : StreamEvent) (now : Z)
    (s : State) :
  Category event = "DML" -> decode_fails (PKValues event) ->
  exists s',
    processEvent event now s = (Normal tt, s')
    /\ lagSeconds s' = int64_sub now (Timestamp event)
    /\ ((- 2 ^ 63 <= now - Timestamp event < 2 ^ 63)%Z ->
        lagSeconds s' = (now - Timestamp event)%Z)
    /\ cache_calls (trace s') = cache_calls (trace s)
    /\ internalErrors s' = Counters_Add "Invalidation" 1 (internalErrors s)
    /\ gtid s' = gtid s.
Proof.
  intros Hcat Hbad.
  destruct (handleDmlEvent_abort_run event s Hbad) as (err & _ & Hrun).
  unfold processEvent, defer_recover, processEvent_body, processEvent_switch.
  rewrite Hcat. simpl. unfold bind. rewrite Hrun. run_steps.
  eexists. split; [reflexivity|]. simpl.
  split; [done|]. split.
  { intros Hrange. unfold int64_sub. by apply wrap64_small. }
  split; [apply cache_calls_log|done].
Qed.

(** ** The trace only grows, and only [run] opens streams *)

Lemma quiet_bind {A B} (c : M A) (k : A -> M B) :
  quiet c -> (forall a, quiet (k a)) -> quiet (bind c k).
Proof.
  intros Hc Hk s. unfold bind. destruct (Hc s) as (t1 & Ht1 & Hs1).
  destruct (c s) as [[a|x] s1]; simpl in *.
  - destruct (Hk a s1) as (t2 & Ht2 & Hs2). exists (t1 ++ t2).
    rewrite Ht2, Ht1, <- app_assoc. split; [done|].
    unfold stream_starts in *. by rewrite omap_app, Hs1, Hs2.
  - by exists t1.
Qed.

Lemma quiet_defer_recover {A} (zero : A)
    (deferred : option PanicValue -> A -> M A) (body : M A) :
  quiet body -> (forall r a, quiet (deferred r a)) ->
  quiet (defer_recover zero deferred body).
Proof.
  intros Hb Hd s. unfold defer_recover. destruct (Hb s) as (t1 & Ht1 & Hs1).
  destruct (body s) as [[a|x] s1]; simpl in *.
  - destruct (Hd None a s1) as (t2 & Ht2 & Hs2). exists (t1 ++ t2).
    rewrite Ht2, Ht1, <- app_assoc. split; [done|].
    unfold stream_starts in *. by rewrite omap_app, Hs1, Hs2.
  - destruct (Hd (Some x) zero s1) as (t2 & Ht2 & Hs2). exists (t1 ++ t2).
    rewrite Ht2, Ht1, <- app_assoc. split; [done|].
    unfold stream_starts in *. by rewrite omap_app, Hs1, Hs2.
Qed.

Lemma quiet_silent {A} (c : M A) :
  (forall s, trace (c s).2 = trace s) -> quiet c.
Proof. intros H s. exists []. by rewrite H, app_nil_r. Qed.

Lemma quiet_log (sev : Severity) (format : string) (args : list LogArg) :
  quiet (emit (ELog sev format args)).
Proof. intros s. by exists [ELog sev format args]. Qed.

Lemma quiet_qe_call (c : CacheCall) : quiet (qe_call c).
Proof.
  intros s. exists [ECache c]. unfold qe_call.
  by destruct (qe_fault (trace s) c).
Qed.

Ltac quiet :=
  repeat first
    [ apply quiet_bind; [|intros ?]
    | apply quiet_defer_recover; [|intros ? ?]
    | apply quiet_qe_call
    | apply quiet_log
    | solve [apply quiet_silent; intros ?; reflexivity]
    | match goal with |- quiet (if ?b then _ else _) => destruct b end
    | match goal with |- quiet (match ?x with _ => _ end) => destruct x end ].

Lemma quiet_handleDmlEvent (event : StreamEvent) : quiet (handleDmlEvent event).
Proof. unfold handleDmlEvent, log_Errorf. quiet. Qed.

Lemma quiet_processEvent (event : StreamEvent) (now : Z) :
  quiet (processEvent event now).
Proof.
  unfold processEvent, processEvent_body, processEvent_switch,
    handleInvalidationError, log_Errorf, log_Infof.
  apply quiet_defer_recover; [|intros; quiet].
  apply quiet_bind; [|intros; quiet].
  repeat match goal with
         | |- quiet (if ?b then _ else _) => destruct b
         end.
  1,3-5: quiet.
  apply quiet_bind; [apply quiet_handleDmlEvent|]. intros _. quiet.
Qed.

Lemma deliver_callback (events : list (StreamEvent * Z)) (s : State) :
  exists s1 tail,
    deliver stream_callback events s = (Normal None, s1)
    /\ trace s1 = trace s ++ tail /\ stream_starts tail = [].
Proof.
  revert s. induction events as [|[event now] later IH]; intros s; simpl.
  - exists s, []. by rewrite app_nil_r.
  - unfold bind at 1. unfold stream_callback at 1. unfold bind at 1.
    destruct (quiet_processEvent event now s) as (t1 & Ht1 & Hs1).
    pose proof (processEvent_never_panics event now s) as Hok.
    destruct (processEvent event now s) as [r s0]. simpl in *. subst r.
    unfold ret at 1.
    destruct (IH s0) as (s1 & t2 & Hrun & Ht2 & Hs2).
    exists s1, (t1 ++ t2). rewrite Hrun, Ht2, Ht1, <- app_assoc.
    split; [done|]. split; [done|].
    unfold stream_starts in *. by rewrite omap_app, Hs1, Hs2.
Qed.

Lemma run_attempt_run (source : GTID -> Session) (s : State) :
  exists s1 tail,
    run_attempt source s = (Normal (attempt_error (source (gtid s))), s1)
    /\ trace s1 = trace s ++ EStream (gtid s) :: tail
    /\ stream_starts tail = [].
Proof.
  unfold run_attempt, defer_recover, attempt_error.
  unfold bind at 1. unfold GetGTID at 1. unfold evs_Stream.
  unfold bind at 1. unfold emit at 1. unfold bind at 1.
  match goal with
  | |- context [deliver stream_callback ?es ?s0] =>
      destruct (deliver_callback es s0) as (s1 & tail & -> & Htr & Hst)
  end.
  simpl in Htr. rewrite <- app_assoc in Htr. simpl in Htr.
  exists s1, tail.
  destruct (ending (source (gtid s))); simpl; auto.
Qed.

(** ** The retry loop *)

Lemma run_cons (source : GTID -> Session) (later : list (GTID -> Session))
    (s s1 : State) (err : option error) :
  run_attempt source s = (Normal err, s1) ->
  run (source :: later) s
  = match err with
    | None =>
        (Normal true,
         mkState (svm s1) (workers s1) (dbname s1) (mysqld s1) (evs s1)
                 (lagSeconds s1) (gtid s1) (internalErrors s1)
                 (trace s1 ++ [ELog INFO "Rowcache invalidator stopped" []]))
    | Some e =>
        run later
          (mkState (svm s1) (workers s1) (dbname s1) (mysqld s1) (evs s1)
                   (lagSeconds s1) (gtid s1)
                   (Counters_Add "Invalidation" 1 (internalErrors s1))
                   ((trace s1
                     ++ [ELog ERROR
                           "binlog.ServeUpdateStream returned err '%v', retrying in 1 second."
                           [ArgString e]])
                    ++ [ESleep (1 * Second)]))
    end.
Proof.
  intros Hrun. simpl. unfold bind at 1. rewrite Hrun.
  destruct err as [e|]; reflexivity.
Qed.

(** C4: an iteration of the loop of [run] calls the streamer with the
    position [GetGTID] gives at that moment, and never panics.  When the
    call ends with an error (returned, or recovered from a panic) the
    loop logs it, adds one to the Invalidation counter, sleeps one
    second and goes round again with the tracked position it has then,
    which is where the next call of the streamer starts; when the call
    ends with nil the loop is left, whatever the source would do next. *)
Theorem run_retry_loop (source : GTID -> Session)
    (later : list (GTID -> Session)) (s : State) :
  exists s1 tail,
    run_attempt source s = (Normal (attempt_error (source (gtid s))), s1)
    /\ trace s1 = trace s ++ EStream (gtid s) :: tail
    /\ stream_starts tail = []
    /\ match attempt_error (source (gtid s)) with
       | None =>
           exists s2,
             run (source :: later) s = (Normal true, s2)
             /\ trace s2
                = trace s1 ++ [ELog INFO "Rowcache invalidator stopped" []]
             /\ internalErrors s2 = internalErrors s1
             /\ gtid s2 = gtid s1
       | Some e =>
           exists s2,
             run (source :: later) s = run later s2
             /\ trace s2
                = trace s1
                  ++ [ELog ERROR
                        "binlog.ServeUpdateStream returned err '%v', retrying in 1 second."
                        [ArgString e];
                      ESleep (1 * Second)]
             /\ internalErrors s2
                = Counters_Add "Invalidation" 1 (internalErrors s1)
             /\ gtid s2 = gtid s1
             /\ forall next rest, later = next :: rest ->
                exists s3 tail',
                  run_attempt next s2
                  = (Normal (attempt_error (next (gtid s1))), s3)
                  /\ trace s3 = trace s2 ++ EStream (gtid s1) :: tail'
       end.
Proof.
  destruct (run_attempt_run source s) as (s1 & tail & Hrun & Htr & Hst).
  exists s1, tail. split; [done|]. split; [done|]. split; [done|].
  rewrite (run_cons source later s s1 _ Hrun).
  destruct (attempt_error (source (gtid s))) as [e|].
  - eexists. split; [reflexivity|]. simpl.
    split; [by rewrite <- app_assoc|]. split; [done|]. split; [done|].
    intros next rest _.
    match goal with
    | |- context [run_attempt next ?s2] =>
        destruct (run_attempt_run next s2) as (s3 & tail' & Hn & Htr' & _)
    end.
    exists s3, tail'. simpl in Hn, Htr'. by rewrite Hn, Htr'.
  - eexists. split; [reflexivity|]. done.
Qed.

Lemma run_never_panics (sources : list (GTID -> Session)) (s : State) :
  exists left s', run sources s = (Normal left, s').
Proof.
  revert s. induction sources as [|source later IH]; intros s.
  - by exists false, s.
  - destruct (run_attempt_run source s) as (s1 & tail & Hrun & _).
    rewrite (run_cons source later s s1 _ Hrun).
    destruct (attempt_error (source (gtid s))); [apply IH|eauto].
Qed.

Lemma run_all_fail (sources : list (GTID -> Session)) (s : State) :
  (forall source g, source ∈ sources -> ending (source g) <> EndNil) ->
  (run sources s).1 = Normal false.
Proof.
  revert s. induction sources as [|source later IH]; intros s Hfail.
  - reflexivity.
  - destruct (run_attempt_run source s) as (s1 & tail & Hrun & _).
    rewrite (run_cons source later s s1 _ Hrun).
    assert (Hend : ending (source (gtid s)) <> EndNil)
      by (apply Hfail; apply list_elem_of_here).
    unfold attempt_error.
    destruct (ending (source (gtid s))); [done| |];
      (apply IH; intros src g Hin; apply Hfail;
       by apply list_elem_of_further).
Qed.

(** ** Open and Close *)

(** C6: when the master-status query of the source fails, or its binlog
    path is empty, [Open] panics with a FATAL [TabletError] and changes
    nothing: no worker is started and the service manager stays as it
    was. *)
Theorem Open_fails_loudly (dbname0 : string) (mysqld0 : Mysqld) (s : State) :
  (exists err, MasterStatus mysqld0 = RetErr err) \/ BinLogPath mysqld0 = "" ->
  exists terr,
    Open dbname0 mysqld0 s = (Panic (PanicTablet terr), s)
    /\ ErrorType terr = FATAL.
Proof.
  intros [[err Herr]|Hpath]; unfold Open.
  - rewrite Herr. eexists. split; reflexivity.
  - destruct (MasterStatus mysqld0) as [rp|err].
    + rewrite Hpath. simpl. eexists. split; reflexivity.
    + eexists. split; reflexivity.
Qed.

(** C7, as the code has it: while the service is Running, an [Open]
    whose master-status query succeeds and whose source has a binlog path
    logs that the invalidator is already running and returns, and an
    [Open] of any kind starts no worker and leaves the running one, its
    stream handle and its position alone; a [Close] that finds no stream
    handle logs that the row cache is not running and returns without
    waiting on the service manager. *)
Theorem Open_Close_idle (dbname0 : string) (mysqld0 : Mysqld) (s : State) :
  (svm s = Running ->
   (forall rp, MasterStatus mysqld0 = RetOk rp -> BinLogPath mysqld0 <> "" ->
      Open dbname0 mysqld0 s
      = (Normal tt,
         mkState (svm s) (workers s) (dbname s) (mysqld s) (evs s)
                 (lagSeconds s) (gtid s) (internalErrors s)
                 (trace s
                  ++ [ELog INFO "Rowcache invalidator already running" []])))
   /\ same_service s (Open dbname0 mysqld0 s).2
   /\ gtid (Open dbname0 mysqld0 s).2 = gtid s)
  /\ (evs s = None ->
      Close s
      = (Normal tt,
         mkState (svm s) (workers s) (dbname s) (mysqld s) (evs s)
                 (lagSeconds s) (gtid s) (internalErrors s)
                 (trace s ++ [ELog INFO "Rowcache is not running" []]))).
Proof.
  split.
  - intros Hrun. unfold Open, same_service.
    destruct (MasterStatus mysqld0) as [rp|err].
    + destruct (String.eqb_spec (BinLogPath mysqld0) "") as [Hp|Hp].
      * split; [intros ? _ ?; done|]. simpl. done.
      * unfold bind, svm_Go, log_Infof, emit. rewrite Hrun. simpl.
        split; [intros; by rewrite Hrun|]. by rewrite Hrun.
    + split; [intros ? [=]|]. simpl. done.
  - intros Hevs. unfold Close, log_Infof, emit.
    rewrite Hevs. simpl. by rewrite ?Hevs.
Qed.

(** The only panics of the dispatcher's body are those of the
    query-engine call it makes: the call is the last effect, and the
    value is the one the engine raised. *)
Lemma processEvent_body_panic (event : StreamEvent) (now : Z) (s s1 : State)
    (x : PanicValue) :
  processEvent_body event now s = (Panic x, s1) ->
  exists before call,
    trace s1 = before ++ [ECache call] /\ qe_fault before call = Some x.
Proof.
  unfold processEvent_body, processEvent_switch.
  destruct (String.eqb (Category event) "DDL");
    [|destruct (String.eqb (Category event) "DML");
      [|destruct (String.eqb (Category event) "ERR");
        [|destruct (String.eqb (Category event) "POS")]]].
  - run_steps. unfold qe_call. simpl.
    destruct (qe_fault _ _) as [y|] eqn:Hq; simpl; [|done].
    intros [= <- <-]. simpl. eauto.
  - unfold handleDmlEvent.
    destruct (dml_loop _ _ _) as [[keys' buf']|err]; [|run_steps; done].
    unfold bind, qe_call.
    destruct (qe_fault _ _) as [y|] eqn:Hq; simpl; [|done].
    intros [= <- <-]. simpl. eauto.
  - unfold bind, qe_call.
    destruct (qe_fault _ _) as [y|] eqn:Hq; simpl; [|done].
    intros [= <- <-]. simpl. eauto.
  - run_steps. done.
  - run_steps. done.
Qed.

(** ** Decoding a whole event *)

Lemma decode_values_ok (raws : list RawValue) (vs : list Value) :
  decode_values raws = RetOk vs -> decodes raws vs.
Proof.
  revert vs. induction raws as [|raw raws IH]; intros vs; simpl.
  - intros [= <-]. constructor.
  - destruct (BuildValue raw) as [v|e] eqn:Hraw; [|done].
    destruct (decode_values raws) as [vs'|e]; [|done].
    intros [= <-]. constructor; [done|by apply IH].
Qed.

Lemma decode_values_err (raws : list RawValue) (err : error) :
  decode_values raws = RetErr err ->
  Exists (fun raw => exists e, BuildValue raw = RetErr e) raws.
Proof.
  induction raws as [|raw raws IH]; simpl; [done|].
  destruct (BuildValue raw) as [v|e] eqn:Hraw.
  - destruct (decode_values raws) as [vs'|e]; [done|].
    intros [= ->]. apply Exists_cons_tl. by apply IH.
  - intros _. apply Exists_cons_hd. eauto.
Qed.

Lemma decode_rows_ok (rows : list (list RawValue))
    (decoded : list (list Value)) :
  decode_rows rows = RetOk decoded -> Forall2 decodes rows decoded.
Proof.
  revert decoded. induction rows as [|row rows IH]; intros decoded; simpl.
  - intros [= <-]. constructor.
  - destruct (decode_values row) as [vs|e] eqn:Hrow; [|done].
    destruct (decode_rows rows) as [d|e]; [|done].
    intros [= <-]. constructor; [by apply decode_values_ok|by apply IH].
Qed.

Lemma decode_rows_err (rows : list (list RawValue)) (err : error) :
  decode_rows rows = RetErr err -> decode_fails rows.
Proof.
  unfold decode_fails. induction rows as [|row rows IH]; simpl; [done|].
  destruct (decode_values row) as [vs|e] eqn:Hrow.
  - destruct (decode_rows rows) as [d|e]; [done|].
    intros [= ->]. apply Exists_cons_tl. by apply IH.
  - intros _. apply Exists_cons_hd. by eapply decode_values_err.
Qed.

(** ** What a computation leaves to be read after it *)

Lemma after_bind {A B C} (proj : State -> C) (c : M A) (k : A -> M B)
    (s : State) :
  (forall a, preserves proj (k a)) -> proj (bind c k s).2 = proj (c s).2.
Proof.
  intros Hk. unfold bind. destruct (c s) as [[a|x] s1]; simpl; [|done].
  apply Hk.
Qed.

Lemma after_defer_recover {A C} (proj : State -> C) (zero : A)
    (deferred : option PanicValue -> A -> M A) (body : M A) (s : State) :
  (forall r a, preserves proj (deferred r a)) ->
  proj (defer_recover zero deferred body s).2 = proj (body s).2.
Proof.
  intros Hd. unfold defer_recover.
  destruct (body s) as [[a|x] s1]; simpl; apply Hd.
Qed.

Lemma cache_calls_app (es1 es2 : list Effect) :
  cache_calls (es1 ++ es2) = cache_calls es1 ++ cache_calls es2.
Proof. unfold cache_calls. apply omap_app. Qed.

Lemma handleInvalidationError_preserves_calls (event : StreamEvent)
    (recovered : option PanicValue) :
  preserves (fun s => cache_calls (trace s))
            (handleInvalidationError event recovered).
Proof.
  intros s. unfold handleInvalidationError.
  destruct recovered as [[terr|x]|]; run_steps;
    rewrite ?cache_calls_app, ?app_nil_r; reflexivity.
Qed.

Lemma qe_call_calls (c : CacheCall) (s : State) :
  cache_calls (trace (qe_call c s).2) = cache_calls (trace s) ++ [c].
Proof.
  unfold qe_call. destruct (qe_fault (trace s) c); simpl;
    by rewrite cache_calls_app.
Qed.

Lemma handleDmlEvent_calls (event : StreamEvent) (s : State) :
  cache_calls (trace (handleDmlEvent event s).2)
  = cache_calls (trace s)
    ++ match decode_rows (PKValues event) with
       | RetOk decoded =>
           [InvalidateForDml (TableName event) (nonempty_keys decoded)]
       | RetErr _ => []
       end.
Proof.
  destruct (decode_rows (PKValues event)) as [decoded|err] eqn:Hdec.
  - apply decode_rows_ok in Hdec. unfold handleDmlEvent.
    destruct (dml_loop_ok (PKValues event) decoded
                (make0 "" (length (PKValues event)))
                (make0 zeroValue (length (PKColNames event))) Hdec
                (wf_make0 _ _))
      as (keys' & buf' & -> & _ & Hel).
    rewrite elems_make0 in Hel. simpl in Hel. rewrite Hel.
    apply qe_call_calls.
  - apply decode_rows_err in Hdec.
    destruct (handleDmlEvent_abort_run event s Hdec) as (e & _ & ->).
    simpl. by rewrite cache_calls_log, app_nil_r.
Qed.

Lemma processEvent_calls (event : StreamEvent) (now : Z) (s : State) :
  cache_calls (trace (processEvent event now s).2)
  = cache_calls (trace s) ++ expected_calls event.
Proof.
  unfold processEvent.
  rewrite (after_defer_recover (fun s => cache_calls (trace s)))
    by (intros; apply handleInvalidationError_preserves_calls).
  unfold processEvent_body.
  rewrite (after_bind (fun s => cache_calls (trace s)))
    by (intros []; intros ?; reflexivity).
  unfold processEvent_switch, expected_calls.
  destruct (String.eqb (Category event) "DDL");
    [|destruct (String.eqb (Category event) "DML");
      [|destruct (String.eqb (Category event) "ERR");
        [|destruct (String.eqb (Category event) "POS")]]].
  - unfold bind at 1. unfold log_Infof, emit at 1.
    rewrite (after_bind (fun s => cache_calls (trace s)))
      by (intros; intros ?; reflexivity).
    rewrite qe_call_calls. simpl. by rewrite cache_calls_log.
  - rewrite (after_bind (fun s => cache_calls (trace s)))
      by (intros; intros ?; reflexivity).
    apply handleDmlEvent_calls.
  - rewrite (after_bind (fun s => cache_calls (trace s)))
      by (intros; intros ?; reflexivity).
    apply qe_call_calls.
  - run_steps. by rewrite app_nil_r.
  - run_steps. by rewrite cache_calls_log, app_nil_r.
Qed.

Lemma processEvent_gtid (event : StreamEvent) (now : Z) (s : State) :
  gtid (processEvent event now s).2
  = if String.eqb (Category event) "POS" then GTIDField event else gtid s.
Proof.
  destruct (String.eqb_spec (Category event) "POS") as [Hcat|Hcat].
  - unfold processEvent, defer_recover, processEvent_body,
      processEvent_switch. rewrite Hcat. reflexivity.
  - assert (H : preserves gtid (processEvent event now)); [|apply H].
    unfold processEvent, processEvent_body.
    apply preserves_defer_recover;
      [|intros; apply handleInvalidationError_preserves_gtid].
    apply preserves_bind;
      [by apply processEvent_switch_preserves_gtid|].
    intros []; frame.
Qed.

(** ** A whole stream call *)

Lemma deliver_dispatch (events : list (StreamEvent * Z)) (s : State) :
  deliver stream_callback events s = (Normal None, dispatch_all events s).
Proof.
  revert s. induction events as [|[event now] later IH]; intros s; simpl.
  - reflexivity.
  - unfold bind at 1. unfold stream_callback at 1. unfold bind at 1.
    pose proof (processEvent_never_panics event now s) as Hok.
    destruct (processEvent event now s) as [r s0]. simpl in *. subst r.
    unfold ret at 1. apply IH.
Qed.

Lemma dispatch_all_calls (events : list (StreamEvent * Z)) (s : State) :
  cache_calls (trace (dispatch_all events s))
  = cache_calls (trace s) ++ flat_map (fun en => expected_calls en.1) events.
Proof.
  revert s. induction events as [|[event now] later IH]; intros s; simpl.
  - by rewrite app_nil_r.
  - unfold dispatch_all in *. simpl. rewrite IH, processEvent_calls.
    by rewrite <- app_assoc.
Qed.

Lemma dispatch_all_gtid (events : list (StreamEvent * Z)) (s : State) :
  gtid (dispatch_all events s) = last_position events (gtid s).
Proof.
  revert s. induction events as [|[event now] later IH]; intros s; simpl.
  - reflexivity.
  - unfold dispatch_all, last_position in *. simpl.
    by rewrite IH, processEvent_gtid.
Qed.

(** X1: the callback of [run] never ends a stream call: whatever the
    events are (undecodable rows, unknown categories, query-engine
    panics), every delivered event is dispatched, in order, and the
    query engine receives the calls of each of them. *)
Theorem stream_callback_dispatches_all (events : list (StreamEvent * Z))
    (s : State) :
  deliver stream_callback events s = (Normal None, dispatch_all events s)
  /\ cache_calls (trace (dispatch_all events s))
     = cache_calls (trace s)
       ++ flat_map (fun en => expected_calls en.1) events.
Proof. split; [apply deliver_dispatch|apply dispatch_all_calls]. Qed.

(** X2: the query-engine calls of one dispatched event are decided by
    its category alone: one [InvalidateForDDL] for DDL, one
    [InvalidateForUnrecognized] for ERR, one [InvalidateForDml] for a DML
    event that decodes, none for a DML event that does not, for POS and
    for an unknown category; a panic of the call changes nothing to
    that. *)
Theorem processEvent_routes (event : StreamEvent) (now : Z) (s : State) :
  cache_calls (trace (processEvent event now s).2)
  = cache_calls (trace s) ++ expected_calls event
  /\ (length (expected_calls event) <= 1)%nat.
Proof.
  split; [apply processEvent_calls|].
  unfold expected_calls.
  repeat match goal with
         | |- context [if ?b then _ else _] => destruct b
         | |- context [match ?r with RetOk _ => _ | RetErr _ => _ end] =>
             destruct r
         end; simpl; lia.
Qed.

(** X3: after the events of a stream call have been dispatched the
    tracked position is the GTID of the last POS event among them, or the
    position tracked before when there was none. *)
Theorem dispatch_tracks_last_position (events : list (StreamEvent * Z))
    (s : State) :
  gtid (dispatch_all events s) = last_position events (gtid s).
Proof. apply dispatch_all_gtid. Qed.

(** X4: [GetGTIDString], after the events of a stream call, answers with
    the text of the GTID of the last POS event, and with "<nil>" when the
    position is still the nil interface; it changes nothing. *)
Theorem GetGTIDString_after_dispatch (events : list (StreamEvent * Z))
    (s : State) :
  GetGTIDString (dispatch_all events s)
  = (Normal (position_text (last_position events (gtid s))),
     dispatch_all events s).
Proof.
  unfold GetGTIDString, bind, GetGTID. rewrite dispatch_all_gtid.
  by destruct (last_position events (gtid s)).
Qed.

(** ** What dispatching adds to the trace *)

Lemma only_adds_bind (P : Effect -> Prop) {A B} (c : M A) (k : A -> M B) :
  only_adds P c -> (forall a, only_adds P (k a)) -> only_adds P (bind c k).
Proof.
  intros Hc Hk s. unfold bind. destruct (Hc s) as (t1 & Ht1 & Hp1).
  destruct (c s) as [[a|x] s1]; simpl in *.
  - destruct (Hk a s1) as (t2 & Ht2 & Hp2). exists (t1 ++ t2).
    rewrite Ht2, Ht1, <- app_assoc. split; [done|]. by apply Forall_app.
  - by exists t1.
Qed.

Lemma only_adds_defer_recover (P : Effect -> Prop) {A} (zero : A)
    (deferred : option PanicValue -> A -> M A) (body : M A) :
  only_adds P body -> (forall r a, only_adds P (deferred r a)) ->
  only_adds P (defer_recover zero deferred body).
Proof.
  intros Hb Hd s. unfold defer_recover. destruct (Hb s) as (t1 & Ht1 & Hp1).
  destruct (body s) as [[a|x] s1]; simpl in *.
  - destruct (Hd None a s1) as (t2 & Ht2 & Hp2). exists (t1 ++ t2).
    rewrite Ht2, Ht1, <- app_assoc. split; [done|]. by apply Forall_app.
  - destruct (Hd (Some x) zero s1) as (t2 & Ht2 & Hp2). exists (t1 ++ t2).
    rewrite Ht2, Ht1, <- app_assoc. split; [done|]. by apply Forall_app.
Qed.

Lemma only_adds_silent (P : Effect -> Prop) {A} (c : M A) :
  (forall s, trace (c s).2 = trace s) -> only_adds P c.
Proof. intros H s. exists []. by rewrite H, app_nil_r. Qed.

Lemma only_adds_emit (P : Effect -> Prop) (e : Effect) :
  P e -> only_adds P (emit e).
Proof. intros He s. exists [e]. split; [done|]. by constructor. Qed.

Lemma only_adds_qe_call (P : Effect -> Prop) (c : CacheCall) :
  P (ECache c) -> only_adds P (qe_call c).
Proof.
  intros Hc s. exists [ECache c]. unfold qe_call.
  destruct (qe_fault (trace s) c); (split; [done|by constructor]).
Qed.

Ltac only_adds :=
  repeat first
    [ apply only_adds_bind; [|intros ?]
    | apply only_adds_defer_recover; [|intros ? ?]
    | apply only_adds_qe_call; exact I
    | apply only_adds_emit; exact I
    | solve [apply only_adds_silent; intros ?; reflexivity]
    | match goal with
      | |- only_adds _ (if ?b then _ else _) => destruct b
      end
    | match goal with
      | |- only_adds _ (match ?x with _ => _ end) => destruct x
      end ].

Lemma handleDmlEvent_only_adds (event : StreamEvent) :
  only_adds dispatch_effect (handleDmlEvent event).
Proof. unfold handleDmlEvent, log_Errorf. only_adds. Qed.

Lemma processEvent_only_adds (event : StreamEvent) (now : Z) :
  only_adds dispatch_effect (processEvent event now).
Proof.
  unfold processEvent, processEvent_body, processEvent_switch,
    handleInvalidationError, log_Errorf, log_Infof.
  apply only_adds_defer_recover; [|intros; only_adds].
  apply only_adds_bind; [|intros; only_adds].
  repeat match goal with
         | |- only_adds _ (if ?b then _ else _) => destruct b
         end.
  1,3-5: only_adds.
  apply only_adds_bind; [apply handleDmlEvent_only_adds|].
  intros _. only_adds.
Qed.

Lemma dispatch_all_only_adds (events : list (StreamEvent * Z)) (s : State) :
  exists tail,
    trace (dispatch_all events s) = trace s ++ tail
    /\ Forall dispatch_effect tail.
Proof.
  revert s. induction events as [|[event now] later IH]; intros s.
  - exists []. by rewrite app_nil_r.
  - unfold dispatch_all in *. simpl.
    destruct (processEvent_only_adds event now s) as (t1 & Ht1 & Hp1).
    destruct (IH (processEvent event now s).2) as (t2 & Ht2 & Hp2).
    exists (t1 ++ t2). rewrite Ht2, Ht1, <- app_assoc.
    split; [done|]. by apply Forall_app.
Qed.

Lemma dispatch_effects_no_stream (tail : list Effect) :
  Forall dispatch_effect tail -> stream_starts tail = [] /\ sleeps tail = [].
Proof.
  induction 1 as [|e tail He _ [IH1 IH2]]; [done|].
  unfold stream_starts, sleeps in *. destruct e; simpl in *; done.
Qed.

(** X5: dispatching an event only writes log lines and calls the query
    engine: it never sleeps, never opens a stream and never stops the
    streamer or waits on the service manager. *)
Theorem processEvent_effects (event : StreamEvent) (now : Z) (s : State) :
  exists tail,
    trace (processEvent event now s).2 = trace s ++ tail
    /\ Forall dispatch_effect tail
    /\ stream_starts tail = [] /\ sleeps tail = []
    /\ (EEvsStop ∉ tail) /\ (ESvmStopWait ∉ tail).
Proof.
  destruct (processEvent_only_adds event now s) as (tail & Htr & Hp).
  exists tail. split; [done|]. split; [done|].
  destruct (dispatch_effects_no_stream tail Hp) as [H1 H2].
  split; [done|]. split; [done|].
  rewrite Forall_forall in Hp.
  split; intros Hin; apply (Hp _ Hin).
Qed.

(** ** The loop as a whole *)

Lemma run_attempt_dispatch (source : GTID -> Session) (s : State) :
  run_attempt source s
  = (Normal (attempt_error (source (gtid s))),
     dispatch_all (delivered (source (gtid s)))
                  (emit (EStream (gtid s)) s).2).
Proof.
  unfold run_attempt, defer_recover, attempt_error.
  unfold bind at 1. unfold GetGTID at 1. unfold evs_Stream.
  unfold bind at 1. unfold emit at 1. unfold bind at 1.
  rewrite deliver_dispatch.
  destruct (ending (source (gtid s))); reflexivity.
Qed.

Lemma run_attempt_observed (source : GTID -> Session) (s : State) :
  exists s1,
    run_attempt source s = (Normal (attempt_error (source (gtid s))), s1)
    /\ stream_starts (trace s1) = stream_starts (trace s) ++ [gtid s]
    /\ sleeps (trace s1) = sleeps (trace s)
    /\ gtid s1 = last_position (delivered (source (gtid s))) (gtid s).
Proof.
  eexists. split; [apply run_attempt_dispatch|].
  destruct (dispatch_all_only_adds (delivered (source (gtid s)))
              (emit (EStream (gtid s)) s).2) as (tail & -> & Hp).
  destruct (dispatch_effects_no_stream tail Hp) as [H1 H2].
  rewrite dispatch_all_gtid. simpl.
  unfold stream_starts, sleeps in *.
  rewrite !omap_app, H1, H2. simpl. by rewrite !app_nil_r.
Qed.

Lemma attempt_error_nil (session : Session) :
  attempt_error session = None <-> ending session = EndNil.
Proof. unfold attempt_error. destruct (ending session); split; done. Qed.

Lemma stream_starts_app (es1 es2 : list Effect) :
  stream_starts (es1 ++ es2) = stream_starts es1 ++ stream_starts es2.
Proof. unfold stream_starts. apply omap_app. Qed.

Lemma sleeps_app (es1 es2 : list Effect) :
  sleeps (es1 ++ es2) = sleeps es1 ++ sleeps es2.
Proof. unfold sleeps. apply omap_app. Qed.

Lemma run_starts_cons (source : GTID -> Session)
    (later : list (GTID -> Session)) (s : State) :
  exists rest,
    stream_starts (trace (run (source :: later) s).2)
    = stream_starts (trace s) ++ gtid s :: rest.
Proof.
  revert source s. induction later as [|next later IH]; intros source s;
    destruct (run_attempt_observed source s) as (s1 & Hrun & Hst & _ & _);
    rewrite (run_cons source _ s s1 _ Hrun);
    destruct (attempt_error (source (gtid s))) as [e|].
  - exists []. simpl. unfold stream_starts in *.
    by rewrite !omap_app, Hst, !app_nil_r.
  - exists []. simpl. unfold stream_starts in *.
    by rewrite !omap_app, Hst, !app_nil_r.
  - match goal with
    | |- context [run (next :: later) ?s2] =>
        destruct (IH next s2) as (rest & ->)
    end.
    simpl. exists (gtid s1 :: rest). unfold stream_starts in *.
    rewrite !omap_app, Hst. simpl. rewrite !app_nil_r.
    by rewrite <- app_assoc.
  - exists []. simpl. unfold stream_starts in *.
    by rewrite !omap_app, Hst, !app_nil_r.
Qed.

(** X6: when a stream call ends with an error or a panic, the next call
    of the streamer starts at the GTID of the last POS event the failed
    call delivered, or at the same position again when it delivered
    none. *)
Theorem run_resumes_at_last_position (source next : GTID -> Session)
    (later : list (GTID -> Session)) (s : State) :
  ending (source (gtid s)) <> EndNil ->
  exists rest,
    stream_starts (trace (run (source :: next :: later) s).2)
    = stream_starts (trace s)
      ++ gtid s
         :: last_position (delivered (source (gtid s))) (gtid s) :: rest.
Proof.
  intros Hfail.
  destruct (run_attempt_observed source s) as (s1 & Hrun & Hst & _ & Hg).
  rewrite (run_cons source _ s s1 _ Hrun).
  destruct (attempt_error (source (gtid s))) as [e|] eqn:Herr;
    [|by apply attempt_error_nil in Herr].
  match goal with
  | |- context [run (next :: later) ?s2] =>
      destruct (run_starts_cons next later s2) as (rest & ->)
  end.
  exists rest. simpl. unfold stream_starts in *.
  rewrite !omap_app, Hst, Hg. simpl. rewrite !app_nil_r.
  by rewrite <- app_assoc.
Qed.

(** X7: when the stream calls fail some number of times and then one
    ends with nil, the loop is left at that call: the streamer was called
    once per failure and once more, the loop slept one second after each
    failure, and what the source would have done afterwards plays no
    part. *)
Theorem run_exits_at_first_clean (failing : list (GTID -> Session))
    (clean : GTID -> Session) (rest : list (GTID -> Session)) (s : State) :
  (forall source g, source ∈ failing -> ending (source g) <> EndNil) ->
  (forall g, ending (clean g) = EndNil) ->
  exists s',
    run (failing ++ clean :: rest) s = (Normal true, s')
    /\ run (failing ++ [clean]) s = (Normal true, s')
    /\ length (stream_starts (trace s'))
       = (length (stream_starts (trace s)) + length failing + 1)%nat
    /\ sleeps (trace s')
       = sleeps (trace s) ++ replicate (length failing) (1 * Second)%Z.
Proof.
  intros Hfail Hclean. revert s.
  induction failing as [|source failing IH]; intros s.
  - destruct (run_attempt_observed clean s) as (s1 & Hrun & Hst & Hsl & _).
    simpl app. rewrite !(run_cons clean _ s s1 _ Hrun).
    assert (Hnil : attempt_error (clean (gtid s)) = None)
      by (by apply attempt_error_nil).
    rewrite Hnil. eexists. split; [reflexivity|]. split; [reflexivity|].
    cbn [trace]. rewrite stream_starts_app, sleeps_app, Hst, Hsl. cbn.
    rewrite !app_nil_r, !length_app. cbn. split; [lia|done].
  - destruct (run_attempt_observed source s) as (s1 & Hrun & Hst & Hsl & _).
    simpl app. rewrite !(run_cons source _ s s1 _ Hrun).
    destruct (attempt_error (source (gtid s))) as [e|] eqn:Herr.
    + match goal with
      | |- context [run (failing ++ clean :: rest) ?s2] =>
          destruct (IH (fun src g Hin =>
                          Hfail src g (list_elem_of_further _ _ _ Hin)) s2)
            as (s' & Hr1 & Hr2 & Hn & Hz)
      end.
      exists s'. split; [done|]. split; [done|].
      cbn [trace] in Hn, Hz.
      rewrite !stream_starts_app, Hst in Hn. rewrite !sleeps_app, Hsl in Hz.
      cbn in Hn, Hz. rewrite !app_nil_r, !length_app in Hn. cbn in Hn.
      cbn [length replicate]. split; [lia|].
      by rewrite Hz, app_nil_r, <- app_assoc.
    + apply attempt_error_nil in Herr. exfalso.
      by apply (Hfail source (gtid s) (list_elem_of_here _ _)).
Qed.

(** X8: as long as every stream call ends with an error or a panic the
    loop is not left: the streamer is called once for each, and each
    failure is followed by a sleep of one second. *)
Theorem run_keeps_retrying (sources : list (GTID -> Session)) (s : State) :
  (forall source g, source ∈ sources -> ending (source g) <> EndNil) ->
  exists s',
    run sources s = (Normal false, s')
    /\ length (stream_starts (trace s'))
       = (length (stream_starts (trace s)) + length sources)%nat
    /\ sleeps (trace s')
       = sleeps (trace s) ++ replicate (length sources) (1 * Second)%Z.
Proof.
  intros Hfail. revert s.
  induction sources as [|source sources IH]; intros s.
  - exists s. simpl. rewrite app_nil_r. split; [done|]. split; [lia|done].
  - destruct (run_attempt_observed source s) as (s1 & Hrun & Hst & Hsl & _).
    rewrite (run_cons source _ s s1 _ Hrun).
    destruct (attempt_error (source (gtid s))) as [e|] eqn:Herr.
    + match goal with
      | |- context [run sources ?s2] =>
          destruct (IH (fun src g Hin =>
                          Hfail src g (list_elem_of_further _ _ _ Hin)) s2)
            as (s' & Hr & Hn & Hz)
      end.
      exists s'. split; [done|].
      cbn [trace] in Hn, Hz.
      rewrite !stream_starts_app, Hst in Hn. rewrite !sleeps_app, Hsl in Hz.
      cbn in Hn, Hz. rewrite !app_nil_r, !length_app in Hn. cbn in Hn.
      cbn [length replicate]. split; [lia|].
      by rewrite Hz, app_nil_r, <- app_assoc.
    + apply attempt_error_nil in Herr. exfalso.
      by apply (Hfail source (gtid s) (list_elem_of_here _ _)).
Qed.

(** ** What dispatching leaves alone *)

Lemma preserves_ret {A C} (proj : State -> C) (a : A) : preserves proj (ret a).
Proof. intros s. reflexivity. Qed.

Section Keeps.
Context {C : Type} (proj : State -> C).
Hypothesis keeps_emit : forall e, preserves proj (emit e).
Hypothesis keeps_invalidation :
  forall d, preserves proj (internalErrors_Add "Invalidation" d).
Hypothesis keeps_panic : forall d, preserves proj (internalErrors_Add "Panic" d).
Hypothesis keeps_lag : forall v, preserves proj (lagSeconds_Set v).
Hypothesis keeps_gtid : forall g, preserves proj (SetGTID g).

Ltac keeps :=
  repeat first
    [ apply preserves_bind; [|intros ?]
    | apply preserves_defer_recover; [|intros ? ?]
    | apply preserves_qe_call; intros ?
    | apply preserves_ret
    | apply keeps_emit
    | apply keeps_invalidation
    | apply keeps_panic
    | apply keeps_lag
    | apply keeps_gtid
    | match goal with
      | |- preserves _ (if ?b then _ else _) => destruct b
      end
    | match goal with
      | |- preserves _ (match ?x with _ => _ end) => destruct x
      end ].

Lemma processEvent_keeps (event : StreamEvent) (now : Z) :
  preserves proj (processEvent event now).
Proof.
  unfold processEvent, processEvent_body, processEvent_switch,
    handleDmlEvent, handleInvalidationError, log_Errorf, log_Infof.
  keeps.
Qed.

Lemma dispatch_all_keeps (events : list (StreamEvent * Z)) (s : State) :
  proj (dispatch_all events s) = proj s.
Proof.
  revert s. induction events as [|[event now] later IH]; intros s.
  - reflexivity.
  - unfold dispatch_all in *. simpl. rewrite IH. apply processEvent_keeps.
Qed.

Lemma run_keeps (sources : list (GTID -> Session)) (s : State) :
  proj (run sources s).2 = proj s.
Proof.
  revert s. induction sources as [|source later IH]; intros s.
  - reflexivity.
  - rewrite (run_cons source later s _ _ (run_attempt_dispatch source s)).
    assert (Hs1 : proj (dispatch_all (delivered (source (gtid s)))
                          (emit (EStream (gtid s)) s).2) = proj s).
    { rewrite dispatch_all_keeps. apply keeps_emit. }
    revert Hs1.
    generalize (dispatch_all (delivered (source (gtid s)))
                  (emit (EStream (gtid s)) s).2).
    intros s1 Hs1.
    destruct (attempt_error (source (gtid s))) as [e|].
    + rewrite IH. rewrite <- Hs1.
      pose proof (keeps_emit
        (ELog ERROR
           "binlog.ServeUpdateStream returned err '%v', retrying in 1 second."
           [ArgString e]) s1) as H1.
      pose proof (keeps_invalidation 1 (emit
        (ELog ERROR
           "binlog.ServeUpdateStream returned err '%v', retrying in 1 second."
           [ArgString e]) s1).2) as H2.
      pose proof (keeps_emit (ESleep (1 * Second))
                    (internalErrors_Add "Invalidation" 1 (emit
        (ELog ERROR
           "binlog.ServeUpdateStream returned err '%v', retrying in 1 second."
           [ArgString e]) s1).2).2) as H3.
      rewrite <- H1, <- H2, <- H3. reflexivity.
    + rewrite <- Hs1.
      exact (keeps_emit (ELog INFO "Rowcache invalidator stopped" []) s1).
Qed.

End Keeps.


Lemma run_same_service (sources : list (GTID -> Session)) (s : State) :
  same_service s (run sources s).2.
Proof.
  unfold same_service.
  repeat split; apply run_keeps; intros; intros ?; reflexivity.
Qed.



(** ** Starting and stopping *)

Lemma Open_when_stopped (dbname0 : string) (mysqld0 : Mysqld)
    (rp : ReplicationPosition) (s : State) :
  svm s = Stopped -> MasterStatus mysqld0 = RetOk rp ->
  BinLogPath mysqld0 <> "" ->
  Open dbname0 mysqld0 s
  = (Normal tt,
     mkState Running
             (workers s
              ++ [{| w_dbname := dbname0; w_mysqld := mysqld0; w_rp := rp |}])
             (dbname s) (mysqld s) (evs s) (lagSeconds s) (gtid s)
             (internalErrors s)
             (trace s
              ++ [ELog INFO
                    "Rowcache invalidator starting, dbname: %s, path: %s, logfile: %s, position: %d"
                    [ArgString dbname0; ArgString (BinLogPath mysqld0);
                     ArgString (MasterLogFile rp);
                     ArgInt (MasterLogPosition rp)]])).
Proof.
  intros Hsvm Hrp Hpath. unfold Open. rewrite Hrp.
  destruct (String.eqb_spec (BinLogPath mysqld0) "") as [|_]; [done|].
  unfold bind, svm_Go. rewrite Hsvm. reflexivity.
Qed.

(** X11: an [Open] on a Stopped service whose source answers the
    master-status query and has a binlog path starts exactly one worker,
    carrying the database name, the source and the position just read,
    logs the start and returns at once; the fields of the invalidator
    (name, source, stream handle, tracked position) are not set by [Open]
    itself: that is left to the worker. *)
Theorem Open_starts_one_worker (dbname0 : string) (mysqld0 : Mysqld)
    (rp : ReplicationPosition) (s : State) :
  svm s = Stopped -> MasterStatus mysqld0 = RetOk rp ->
  BinLogPath mysqld0 <> "" ->
  Open dbname0 mysqld0 s
  = (Normal tt,
     mkState Running
             (workers s
              ++ [{| w_dbname := dbname0; w_mysqld := mysqld0; w_rp := rp |}])
             (dbname s) (mysqld s) (evs s) (lagSeconds s) (gtid s)
             (internalErrors s)
             (trace s
              ++ [ELog INFO
                    "Rowcache invalidator starting, dbname: %s, path: %s, logfile: %s, position: %d"
                    [ArgString dbname0; ArgString (BinLogPath mysqld0);
                     ArgString (MasterLogFile rp);
                     ArgInt (MasterLogPosition rp)]])).
Proof. apply Open_when_stopped. Qed.

Lemma Open_keeps_workers_when_running (dbname0 : string) (mysqld0 : Mysqld)
    (s : State) :
  svm s = Running ->
  workers (Open dbname0 mysqld0 s).2 = workers s
  /\ svm (Open dbname0 mysqld0 s).2 = Running.
Proof.
  intros Hsvm. unfold Open.
  destruct (MasterStatus mysqld0) as [rp|err]; [|done].
  destruct (String.eqb (BinLogPath mysqld0) ""); [done|].
  unfold bind, svm_Go. rewrite Hsvm. done.
Qed.

(** X12: two calls of [Open] in a row leave exactly one worker: whatever
    the second call is given, and whether it returns or panics, the
    worker of the first call is the only one added and the service stays
    Running. *)
Theorem Open_twice_one_worker (dbname1 dbname2 : string)
    (mysqld1 mysqld2 : Mysqld) (rp : ReplicationPosition) (s : State) :
  svm s = Stopped -> MasterStatus mysqld1 = RetOk rp ->
  BinLogPath mysqld1 <> "" ->
  workers ((Open dbname1 mysqld1 ;; Open dbname2 mysqld2) s).2
  = workers s
    ++ [{| w_dbname := dbname1; w_mysqld := mysqld1; w_rp := rp |}]
  /\ svm ((Open dbname1 mysqld1 ;; Open dbname2 mysqld2) s).2 = Running.
Proof.
  intros Hsvm Hrp Hpath. unfold bind.
  rewrite (Open_when_stopped dbname1 mysqld1 rp s Hsvm Hrp Hpath).
  match goal with
  | |- context [Open dbname2 mysqld2 ?s1] =>
      destruct (Open_keeps_workers_when_running dbname2 mysqld2 s1 eq_refl)
        as [Hw Hr]
  end.
  by rewrite Hw, Hr.
Qed.

(** X13: a [Close] that comes after [Open] but before the worker has
    installed the stream handle stops nothing: it logs that the row cache
    is not running and returns, with the service still Running and the
    worker still due to start; the streamer is not asked to stop and the
    service manager is not waited on. *)
Theorem Close_before_worker_entered (dbname0 : string) (mysqld0 : Mysqld)
    (rp : ReplicationPosition) (s : State) :
  svm s = Stopped -> evs s = None ->
  MasterStatus mysqld0 = RetOk rp -> BinLogPath mysqld0 <> "" ->
  (Open dbname0 mysqld0 ;; Close) s
  = (Normal tt,
     mkState Running
             (workers s
              ++ [{| w_dbname := dbname0; w_mysqld := mysqld0; w_rp := rp |}])
             (dbname s) (mysqld s) None (lagSeconds s) (gtid s)
             (internalErrors s)
             ((trace s
               ++ [ELog INFO
                     "Rowcache invalidator starting, dbname: %s, path: %s, logfile: %s, position: %d"
                     [ArgString dbname0; ArgString (BinLogPath mysqld0);
                      ArgString (MasterLogFile rp);
                      ArgInt (MasterLogPosition rp)]])
              ++ [ELog INFO "Rowcache is not running" []])).
Proof.
  intros Hsvm Hevs Hrp Hpath. unfold bind.
  rewrite (Open_when_stopped dbname0 mysqld0 rp s Hsvm Hrp Hpath).
  unfold Close, log_Infof, emit. simpl. rewrite Hevs. reflexivity.
Qed.

(** X14: the worker sets the database name, the source, the stream
    handle and the tracked position before the loop, so the first stream
    call starts at the position [Open] read from the master status,
    whatever was tracked before.  The loop never touches the handle: the
    worker ends with the handle cleared when the loop was left, after
    which [Close] only logs, and with the handle still in place while the
    loop is retrying. *)
Theorem worker_life_cycle (w : Worker) (source : GTID -> Session)
    (later : list (GTID -> Session)) (s : State) :
  exists left s' rest,
    worker w (source :: later) s = (Normal left, s')
    /\ stream_starts (trace s')
       = stream_starts (trace s) ++ MasterLogGTIDField (w_rp w) :: rest
    /\ dbname s' = w_dbname w /\ mysqld s' = Some (w_mysqld w)
    /\ workers s' = workers s
    /\ evs s'
       = (if left : bool then None
          else Some {| es_dbname := w_dbname w; es_mysqld := w_mysqld w |})
    /\ (left = true ->
        Close s'
        = (Normal tt,
           mkState (svm s') (workers s') (dbname s') (mysqld s') (evs s')
                   (lagSeconds s') (gtid s') (internalErrors s')
                   (trace s' ++ [ELog INFO "Rowcache is not running" []]))).
Proof.
  unfold worker, bind, worker_enter. cbv beta iota.
  match goal with
  | |- context [run (source :: later) ?s0] =>
      destruct (run_never_panics (source :: later) s0) as (left & s1 & Hrun);
      destruct (run_starts_cons source later s0) as (rest & Hst);
      destruct (run_same_service (source :: later) s0)
        as (Hsvm & Hw & Hdb & Hmy & Hevs)
  end.
  rewrite Hrun in *. simpl in Hst, Hsvm, Hw, Hdb, Hmy, Hevs.
  exists left. destruct left.
  - unfold worker_leave, ret. eexists _, rest. split; [reflexivity|].
    simpl. repeat split; auto.
  - unfold ret. exists s1, rest. split; [reflexivity|].
    repeat split; auto. discriminate.
Qed.

(** ** More on the DML handler *)

Lemma decode_tuple_first_error (good : list RawValue) (vs : list Value)
    (bad : RawValue) (rest : list RawValue) (err : error)
    (buf : Slice Value) :
  decodes good vs -> BuildValue bad = RetErr err ->
  decode_tuple (good ++ bad :: rest) buf = RetErr err.
Proof.
  intros Hgood Hbad. revert buf.
  induction Hgood as [|raw v raws vs Hv _ IH]; intros buf; simpl.
  - by rewrite Hbad.
  - rewrite Hv. apply IH.
Qed.

Lemma dml_loop_first_error (good_rows : list (list RawValue))
    (decoded : list (list Value)) (good : list RawValue) (vs : list Value)
    (bad : RawValue) (rest : list RawValue)
    (rest_rows : list (list RawValue)) (err : error)
    (keys : Slice string) (buf : Slice Value) :
  Forall2 decodes good_rows decoded -> wf_slice keys -> decodes good vs ->
  BuildValue bad = RetErr err ->
  dml_loop (good_rows ++ (good ++ bad :: rest) :: rest_rows) keys buf
  = RetErr err.
Proof.
  intros Hgood_rows Hwf Hgood Hbad. rewrite dml_loop_app.
  destruct (dml_loop_ok good_rows decoded keys buf Hgood_rows Hwf)
    as (keys' & buf' & -> & _ & _).
  simpl. unfold dml_body.
  by rewrite (decode_tuple_first_error good vs bad rest err _ Hgood Hbad).
Qed.

(** X15: when values fail to decode, the error that [handleDmlEvent]
    logs is that of the first failing value in row order, then column
    order: rows and values after it are not looked at. *)
Theorem handleDmlEvent_first_error (event : StreamEvent)
    (good_rows : list (list RawValue)) (decoded : list (list Value))
    (good : list RawValue) (vs : list Value) (bad : RawValue)
    (rest : list RawValue) (rest_rows : list (list RawValue))
    (err : error) (s : State) :
  PKValues event = good_rows ++ (good ++ bad :: rest) :: rest_rows ->
  Forall2 decodes good_rows decoded -> decodes good vs ->
  BuildValue bad = RetErr err ->
  handleDmlEvent event s
  = (Normal tt,
     mkState (svm s) (workers s) (dbname s) (mysqld s) (evs s)
             (lagSeconds s) (gtid s)
             (Counters_Add "Invalidation" 1 (internalErrors s))
             (trace s
              ++ [ELog ERROR "Error building invalidation key for %#v: '%v'"
                    [ArgEvent event; ArgError err]])).
Proof.
  intros Hrows Hgood_rows Hgood Hbad. unfold handleDmlEvent.
  assert (H : dml_loop (PKValues event)
                (make0 "" (length (PKValues event)))
                (make0 zeroValue (length (PKColNames event))) = RetErr err).
  { rewrite Hrows at 1.
    apply (dml_loop_first_error good_rows decoded good vs); auto.
    apply wf_make0. }
  rewrite H. reflexivity.
Qed.

Lemma dml_loop_capacity (pkValues : list (list RawValue))
    (keys keys' : Slice string) (buf buf' : Slice Value) :
  dml_loop pkValues keys buf = RetOk (keys', buf') ->
  (len keys + length pkValues <= length (backing keys))%nat ->
  length (backing keys') = length (backing keys)
  /\ (len keys <= len keys' <= len keys + length pkValues)%nat.
Proof.
  revert keys buf. induction pkValues as [|t ts IH]; intros keys buf; simpl.
  - intros [= <- <-] _. lia.
  - unfold dml_body.
    destruct (decode_tuple t (truncate0 buf)) as [buf1|e]; [|done].
    destruct (String.eqb (buildKey (elems buf1)) "").
    + intros Hrun Hcap. destruct (IH _ _ Hrun) as [H1 H2]; lia.
    + intros Hrun Hcap. apply IH in Hrun.
      * unfold append1 in Hrun.
        destruct (decide (len keys < length (backing keys))%nat);
          [|lia].
        simpl in Hrun. rewrite length_insert in Hrun. lia.
      * unfold append1.
        destruct (decide (len keys < length (backing keys))%nat);
          [|lia].
        simpl. rewrite length_insert. lia.
Qed.

(** X16: the slice of keys never outgrows the array [handleDmlEvent]
    makes for it: the loop keeps at most one key per row, every [append]
    writes in place, and the array still has one slot per row at the
    end. *)
Theorem dml_keys_in_place (pkValues : list (list RawValue))
    (keys' : Slice string) (buf buf' : Slice Value) :
  dml_loop pkValues (make0 "" (length pkValues)) buf = RetOk (keys', buf') ->
  length (backing keys') = length pkValues
  /\ (len keys' <= length pkValues)%nat
  /\ (length (elems keys') <= length pkValues)%nat.
Proof.
  intros Hrun. apply dml_loop_capacity in Hrun.
  - unfold make0, elems in *. simpl in *.
    rewrite length_replicate in Hrun. rewrite length_take. lia.
  - unfold make0. simpl. rewrite length_replicate. lia.
Qed.

End Proofs.

(** ** The statements on sample events *)

(** C1: a query-engine panic with a [*TabletError] and one with another
    value, both recovered by [processEvent]; the lag stays at 0. *)
Example processEvent_recovers_tablet_error :
  (processEvent_body (ev_ddl "" 100) 130 streaming).1
  = Panic (PanicTablet (NewTabletError FAIL "DDL is not understood"))
  /\ (processEvent (ev_ddl "" 100) 130 streaming).1 = Normal tt
  /\ internalErrors (processEvent (ev_ddl "" 100) 130 streaming).2
     !! "Invalidation" = Some 1%Z
  /\ internalErrors (processEvent (ev_ddl "" 100) 130 streaming).2
     !! "Panic" = None.
Proof. vm_compute. auto. Qed.

Example processEvent_recovers_other_panic :
  (processEvent_body (ev_err "crash" 100) 130 streaming).1
  = Panic (PanicOther "runtime error: invalid memory address")
  /\ (processEvent (ev_err "crash" 100) 130 streaming).1 = Normal tt
  /\ internalErrors (processEvent (ev_err "crash" 100) 130 streaming).2
     !! "Panic" = Some 1%Z
  /\ internalErrors (processEvent (ev_err "crash" 100) 130 streaming).2
     !! "Invalidation" = None.
Proof. vm_compute. auto. Qed.

(** C2 on a three-row event whose middle row has a null column. *)
Lemma handleDmlEvent_one_call_users :
  Forall2 decodes [[RawNumber "1"]; [RawNil]; [RawNumber "2"]]
                  [[Numeric "1"]; [Null]; [Numeric "2"]]
  /\ exists r s',
       handleDmlEvent
         (ev_dml "users" [[RawNumber "1"]; [RawNil]; [RawNumber "2"]] 100)
         streaming = (r, s')
       /\ trace s'
          = trace streaming
            ++ [ECache (InvalidateForDml "users" ["1"; "2"])]
       /\ cache_calls (trace s')
          = cache_calls (trace streaming)
            ++ [InvalidateForDml "users" ["1"; "2"]]
       /\ internalErrors s' = internalErrors streaming
       /\ gtid s' = gtid streaming
       /\ lagSeconds s' = lagSeconds streaming.
Proof.
  assert (H : Forall2 decodes [[RawNumber "1"]; [RawNil]; [RawNumber "2"]]
                      [[Numeric "1"]; [Null]; [Numeric "2"]])
    by (repeat constructor).
  split; [exact H|].
  exact (handleDmlEvent_one_call
           (ev_dml "users" [[RawNumber "1"]; [RawNil]; [RawNumber "2"]] 100)
           [[Numeric "1"]; [Null]; [Numeric "2"]] streaming H).
Defined.

(** C2 with no key left: the call is made with the empty list. *)
Example handleDmlEvent_empty_key_set :
  trace (handleDmlEvent (ev_dml "users" [[RawNil]; []] 100) streaming).2
  = [ECache (InvalidateForDml "users" [])].
Proof. reflexivity. Qed.

(** C3 on a two-row event whose second row does not decode. *)
Lemma handleDmlEvent_aborts_second_row :
  decode_fails [[RawNumber "1"]; [RawUnsupported "chan int"]]
  /\ exists err s',
       handleDmlEvent
         (ev_dml "users" [[RawNumber "1"]; [RawUnsupported "chan int"]] 100)
         streaming = (Normal tt, s')
       /\ (exists pkTuple raw,
             pkTuple ∈ [[RawNumber "1"]; [RawUnsupported "chan int"]]
             /\ raw ∈ pkTuple /\ BuildValue raw = RetErr err)
       /\ trace s'
          = trace streaming
            ++ [ELog ERROR "Error building invalidation key for %#v: '%v'"
                  [ArgEvent
                     (ev_dml "users"
                        [[RawNumber "1"]; [RawUnsupported "chan int"]] 100);
                   ArgError err]]
       /\ cache_calls (trace s') = cache_calls (trace streaming)
       /\ internalErrors s'
          = Counters_Add "Invalidation" 1 (internalErrors streaming)
       /\ gtid s' = gtid streaming
       /\ lagSeconds s' = lagSeconds streaming.
Proof.
  assert (H : decode_fails [[RawNumber "1"]; [RawUnsupported "chan int"]]).
  { apply Exists_cons_tl, Exists_cons_hd, Exists_cons_hd.
    eexists. reflexivity. }
  split; [exact H|].
  exact (handleDmlEvent_aborts
           (ev_dml "users" [[RawNumber "1"]; [RawUnsupported "chan int"]] 100)
           streaming H).
Defined.

(** C4 on the flaky source: three stream calls, the second and third
    from the position set by the event delivered before the first
    failure; two errors counted; the loop left at the clean end. *)
Example run_flaky_source :
  (run flaky streaming).1 = Normal true
  /\ stream_starts (trace (run flaky streaming).2)
     = [GTIDval "41983-1-10"; GTIDval "41983-1-11"; GTIDval "41983-1-11"]
  /\ internalErrors (run flaky streaming).2 !! "Invalidation" = Some 2%Z
  /\ gtid (run flaky streaming).2 = GTIDval "41983-1-12".
Proof. vm_compute. auto. Qed.

(** C5 on a position event and on a DDL event. *)
Lemma processEvent_position_samples :
  (gtid (processEvent (ev_pos (GTIDval "41983-1-11")) 130 streaming).2
   = GTIDval "41983-1-11"
   /\ trace (processEvent (ev_pos (GTIDval "41983-1-11")) 130 streaming).2
      = trace streaming
   /\ internalErrors
        (processEvent (ev_pos (GTIDval "41983-1-11")) 130 streaming).2
      = internalErrors streaming)
  /\ gtid (processEvent (ev_ddl "alter table t add column x int" 100) 130
             streaming).2
     = gtid streaming.
Proof.
  split.
  - apply (proj1 (processEvent_position (ev_pos (GTIDval "41983-1-11")) 130
                    streaming)).
    reflexivity.
  - apply (proj2 (processEvent_position
                    (ev_ddl "alter table t add column x int" 100) 130
                    streaming)).
    discriminate.
Defined.

(** C6 on a source that is down and on one without a binlog path. *)
Lemma Open_fails_loudly_samples :
  (exists terr,
     Open "vt_test" mysqld_down fresh = (Panic (PanicTablet terr), fresh)
     /\ ErrorType terr = FATAL)
  /\ (exists terr,
        Open "vt_test" mysqld_no_binlog fresh
        = (Panic (PanicTablet terr), fresh)
        /\ ErrorType terr = FATAL).
Proof.
  split.
  - apply (Open_fails_loudly "vt_test" mysqld_down fresh).
    left. exists "connection refused". reflexivity.
  - apply (Open_fails_loudly "vt_test" mysqld_no_binlog fresh).
    right. reflexivity.
Defined.

(** C7 as stated fails: with the service Running, an [Open] on a source
    whose master-status query fails does not log and return, it
    panics. *)
Lemma Open_while_running_panics :
  svm streaming = Running
  /\ Open "vt_test" mysqld_down streaming
     = (Panic (PanicTablet (NewTabletError FATAL
          "Rowcache invalidator aborting: cannot determine replication position: connection refused")),
        streaming)
  /\ ~ (exists s', Open "vt_test" mysqld_down streaming = (Normal tt, s')).
Proof.
  split; [reflexivity|]. split; [reflexivity|].
  intros [s' H]. discriminate H.
Qed.

(** C7 as the code has it, on the running service and on a fresh one. *)
Lemma Open_Close_idle_samples :
  Open "vt_test" sample_mysqld streaming
  = (Normal tt,
     mkState (svm streaming) (workers streaming) (dbname streaming)
             (mysqld streaming) (evs streaming) (lagSeconds streaming)
             (gtid streaming) (internalErrors streaming)
             (trace streaming
              ++ [ELog INFO "Rowcache invalidator already running" []]))
  /\ Close fresh
     = (Normal tt,
        mkState (svm fresh) (workers fresh) (dbname fresh) (mysqld fresh)
                (evs fresh) (lagSeconds fresh) (gtid fresh)
                (internalErrors fresh)
                (trace fresh ++ [ELog INFO "Rowcache is not running" []])).
Proof.
  split.
  - apply (proj1 (proj1 (Open_Close_idle "vt_test" sample_mysqld streaming)
                    eq_refl) sample_rp).
    + reflexivity.
    + discriminate.
  - apply (proj2 (Open_Close_idle "vt_test" sample_mysqld fresh)).
    reflexivity.
Defined.

(** C8 as stated fails: a DDL event (a known category) whose
    query-engine call panics leaves the lag at 0, not at 130 - 100. *)
Lemma recognized_event_lag_not_set :
  recognized (Category (ev_ddl "" 100)) = true
  /\ lagSeconds streaming = 0%Z
  /\ lagSeconds (processEvent (ev_ddl "" 100) 130 streaming).2 = 0%Z
  /\ lagSeconds (processEvent (ev_ddl "" 100) 130 streaming).2
     <> (130 - 100)%Z.
Proof. vm_compute. repeat split; discriminate. Qed.

(** C8 as the code has it, on an unknown category and on a DDL event
    whose handling returns. *)
Lemma processEvent_lag_samples :
  processEvent (ev_other "XYZ" 100) 130 streaming
  = (Normal tt,
     mkState (svm streaming) (workers streaming) (dbname streaming)
             (mysqld streaming) (evs streaming) (lagSeconds streaming)
             (gtid streaming)
             (Counters_Add "Invalidation" 1 (internalErrors streaming))
             (trace streaming
              ++ [ELog ERROR "unknown event: %#v"
                    [ArgEvent (ev_other "XYZ" 100)]]))
  /\ lagSeconds (processEvent (ev_ddl "alter table t add column x int" 100)
                   130 streaming).2
     = 30%Z.
Proof.
  split.
  - apply (proj1 (processEvent_lag (ev_other "XYZ" 100) 130 streaming)).
    reflexivity.
  - pose proof (proj2 (processEvent_lag
                         (ev_ddl "alter table t add column x int" 100)
                         130 streaming) eq_refl) as H.
    vm_compute in H. vm_compute. exact (proj1 H).
Defined.

(** C9 on a two-row event whose second row does not decode. *)
Lemma dml_decode_failure_sets_lag_sample :
  Category (ev_dml "users" [[RawNumber "1"]; [RawUnsupported "chan int"]] 100)
  = "DML"
  /\ decode_fails [[RawNumber "1"]; [RawUnsupported "chan int"]]
  /\ exists s',
       processEvent
         (ev_dml "users" [[RawNumber "1"]; [RawUnsupported "chan int"]] 100)
         130 streaming = (Normal tt, s')
       /\ lagSeconds s' = int64_sub 130 100
       /\ ((- 2 ^ 63 <= 130 - 100 < 2 ^ 63)%Z -> lagSeconds s' = (130 - 100)%Z)
       /\ cache_calls (trace s') = cache_calls (trace streaming)
       /\ internalErrors s'
          = Counters_Add "Invalidation" 1 (internalErrors streaming)
       /\ gtid s' = gtid streaming.
Proof.
  assert (H : decode_fails [[RawNumber "1"]; [RawUnsupported "chan int"]]).
  { apply Exists_cons_tl, Exists_cons_hd, Exists_cons_hd.
    eexists. reflexivity. }
  split; [reflexivity|]. split; [exact H|].
  exact (dml_decode_failure_sets_lag
           (ev_dml "users" [[RawNumber "1"]; [RawUnsupported "chan int"]] 100)
           130 streaming eq_refl H).
Defined.

(** C10 on a one-column tuple that follows a two-column one: the buffer
    still holds the text of the earlier tuple behind its window, and the
    key is that of the later tuple alone. *)
Lemma dml_key_of_own_values_sample :
  dml_loop [[RawNumber "1"; RawText "a"]] (make0 "" 2) (make0 Null 1)
  = RetOk (mkSlice ["1.'a'"; ""] 1, mkSlice [Numeric "1"; Text "a"; Null] 2)
  /\ decodes [RawNumber "2"] [Numeric "2"]
  /\ exists buf',
       dml_body (mkSlice ["1.'a'"; ""] 1)
                (mkSlice [Numeric "1"; Text "a"; Null] 2) [RawNumber "2"]
       = RetOk (mkSlice ["1.'a'"; "2"] 2, buf')
       /\ elems buf' = [Numeric "2"]
       /\ dml_loop ([[RawNumber "1"; RawText "a"]] ++ [[RawNumber "2"]])
                   (make0 "" 2) (make0 Null 1)
          = RetOk (mkSlice ["1.'a'"; "2"] 2, buf').
Proof.
  assert (H : decodes [RawNumber "2"] [Numeric "2"]) by (repeat constructor).
  split; [reflexivity|]. split; [exact H|].
  exact (dml_key_of_own_values [[RawNumber "1"; RawText "a"]]
           [RawNumber "2"] [Numeric "2"] (make0 "" 2)
           (mkSlice ["1.'a'"; ""] 1) (make0 Null 1)
           (mkSlice [Numeric "1"; Text "a"; Null] 2) eq_refl H).
Defined.

Example dml_stale_values_stay_hidden :
  dml_loop [[RawNumber "1"; RawText "a"]; [RawNumber "2"]]
           (make0 "" 2) (make0 Null 1)
  = RetOk (mkSlice ["1.'a'"; "2"] 2, mkSlice [Numeric "2"; Text "a"; Null] 1).
Proof. reflexivity. Qed.

(** ** Further statements on sample events *)

(** X1 on a session with an undecodable row, an unknown category and a
    query-engine panic in the middle: the events after them still reach
    the query engine. *)
Example dispatch_goes_on_after_bad_events :
  cache_calls
    (trace (dispatch_all
              [(ev_half_decoded, 130); (ev_other "XYZ" 100, 131);
               (ev_ddl "" 100, 132);
               (ev_dml "users" [[RawNumber "7"]] 100, 133);
               (ev_ddl "alter table t add column x int" 100, 134)]
              streaming))
  = [InvalidateForDDL ""; InvalidateForDml "users" ["7"];
     InvalidateForDDL "alter table t add column x int"].
Proof. vm_compute. reflexivity. Qed.

(** X6 on the source that loses the connection after a position event. *)
Lemma run_resumes_at_last_position_sample :
  ending (source_lost (gtid streaming)) <> EndNil
  /\ exists rest,
       stream_starts
         (trace (run (source_lost :: source_broken :: [source_stopped])
                     streaming).2)
       = stream_starts (trace streaming)
         ++ gtid streaming
            :: last_position (delivered (source_lost (gtid streaming)))
                             (gtid streaming) :: rest.
Proof.
  assert (H : ending (source_lost (gtid streaming)) <> EndNil)
    by discriminate.
  split; [exact H|].
  exact (run_resumes_at_last_position source_lost source_broken
           [source_stopped] streaming H).
Defined.

Example resume_position_of_source_lost :
  last_position (delivered (source_lost (gtid streaming))) (gtid streaming)
  = GTIDval "41983-1-11".
Proof. reflexivity. Qed.

(** X7 on two failures followed by a clean end. *)
Lemma run_exits_at_first_clean_sample :
  (forall source g,
     source ∈ [source_lost; source_broken] -> ending (source g) <> EndNil)
  /\ (forall g, ending (source_stopped g) = EndNil)
  /\ exists s',
       run ([source_lost; source_broken] ++ source_stopped :: [source_lost])
           streaming = (Normal true, s')
       /\ run ([source_lost; source_broken] ++ [source_stopped]) streaming
          = (Normal true, s')
       /\ length (stream_starts (trace s'))
          = (length (stream_starts (trace streaming))
             + length [source_lost; source_broken] + 1)%nat
       /\ sleeps (trace s')
          = sleeps (trace streaming)
            ++ replicate (length [source_lost; source_broken])
                         (1 * Second)%Z.
Proof.
  assert (H1 : forall source g,
             source ∈ [source_lost; source_broken] ->
             ending (source g) <> EndNil).
  { intros source g Hin.
    apply elem_of_cons in Hin as [->|Hin]; [discriminate|].
    apply elem_of_cons in Hin as [->|Hin]; [discriminate|].
    by apply elem_of_nil in Hin. }
  assert (H2 : forall g, ending (source_stopped g) = EndNil)
    by reflexivity.
  split; [exact H1|]. split; [exact H2|].
  exact (run_exits_at_first_clean [source_lost; source_broken]
           source_stopped [source_lost] streaming H1 H2).
Defined.

(** X8 on two failures and nothing else. *)
Lemma run_keeps_retrying_sample :
  (forall source g,
     source ∈ [source_lost; source_broken] -> ending (source g) <> EndNil)
  /\ exists s',
       run [source_lost; source_broken] streaming = (Normal false, s')
       /\ length (stream_starts (trace s'))
          = (length (stream_starts (trace streaming))
             + length [source_lost; source_broken])%nat
       /\ sleeps (trace s')
          = sleeps (trace streaming)
            ++ replicate (length [source_lost; source_broken])
                         (1 * Second)%Z.
Proof.
  assert (H1 : forall source g,
             source ∈ [source_lost; source_broken] ->
             ending (source g) <> EndNil).
  { intros source g Hin.
    apply elem_of_cons in Hin as [->|Hin]; [discriminate|].
    apply elem_of_cons in Hin as [->|Hin]; [discriminate|].
    by apply elem_of_nil in Hin. }
  split; [exact H1|].
  exact (run_keeps_retrying [source_lost; source_broken] streaming H1).
Defined.

(** X11 on a newly built invalidator and a healthy source. *)
Lemma Open_starts_one_worker_sample :
  svm (NewRowcacheInvalidator ∅) = Stopped
  /\ MasterStatus sample_mysqld = RetOk sample_rp
  /\ BinLogPath sample_mysqld <> ""
  /\ Open "vt_test" sample_mysqld (NewRowcacheInvalidator ∅)
     = (Normal tt,
        mkState Running
                [{| w_dbname := "vt_test"; w_mysqld := sample_mysqld;
                    w_rp := sample_rp |}]
                "" None None 0 GTIDnil ∅
                [ELog INFO
                   "Rowcache invalidator starting, dbname: %s, path: %s, logfile: %s, position: %d"
                   [ArgString "vt_test"; ArgString "/vt/bin-logs/vt-bin";
                    ArgString "vt-bin.000001"; ArgInt 4]]).
Proof.
  assert (H : BinLogPath sample_mysqld <> "") by discriminate.
  split; [reflexivity|]. split; [reflexivity|]. split; [exact H|].
  exact (Open_starts_one_worker "vt_test" sample_mysqld sample_rp
           (NewRowcacheInvalidator ∅) eq_refl eq_refl H).
Defined.

(** X12 with a second [Open] on a source that is down. *)
Lemma Open_twice_one_worker_sample :
  svm (NewRowcacheInvalidator ∅) = Stopped
  /\ MasterStatus sample_mysqld = RetOk sample_rp
  /\ BinLogPath sample_mysqld <> ""
  /\ workers ((Open "vt_test" sample_mysqld ;; Open "vt_test" mysqld_down)
                (NewRowcacheInvalidator ∅)).2
     = workers (NewRowcacheInvalidator ∅)
       ++ [{| w_dbname := "vt_test"; w_mysqld := sample_mysqld;
              w_rp := sample_rp |}]
  /\ svm ((Open "vt_test" sample_mysqld ;; Open "vt_test" mysqld_down)
            (NewRowcacheInvalidator ∅)).2
     = Running.
Proof.
  assert (H : BinLogPath sample_mysqld <> "") by discriminate.
  split; [reflexivity|]. split; [reflexivity|]. split; [exact H|].
  exact (Open_twice_one_worker "vt_test" "vt_test" sample_mysqld mysqld_down
           sample_rp (NewRowcacheInvalidator ∅) eq_refl eq_refl H).
Defined.

(** X13 on a newly built invalidator. *)
Lemma Close_before_worker_entered_sample :
  svm (NewRowcacheInvalidator ∅) = Stopped
  /\ evs (NewRowcacheInvalidator ∅) = None
  /\ MasterStatus sample_mysqld = RetOk sample_rp
  /\ BinLogPath sample_mysqld <> ""
  /\ (Open "vt_test" sample_mysqld ;; Close) (NewRowcacheInvalidator ∅)
     = (Normal tt,
        mkState Running
                [{| w_dbname := "vt_test"; w_mysqld := sample_mysqld;
                    w_rp := sample_rp |}]
                "" None None 0 GTIDnil ∅
                [ELog INFO
                   "Rowcache invalidator starting, dbname: %s, path: %s, logfile: %s, position: %d"
                   [ArgString "vt_test"; ArgString "/vt/bin-logs/vt-bin";
                    ArgString "vt-bin.000001"; ArgInt 4];
                 ELog INFO "Rowcache is not running" []]).
Proof.
  assert (H : BinLogPath sample_mysqld <> "") by discriminate.
  split; [reflexivity|]. split; [reflexivity|]. split; [reflexivity|].
  split; [exact H|].
  exact (Close_before_worker_entered "vt_test" sample_mysqld sample_rp
           (NewRowcacheInvalidator ∅) eq_refl eq_refl eq_refl H).
Defined.

(** X14 on a worker whose source fails once and is then stopped: the
    first stream call starts at the master position, not at the position
    tracked before. *)
Example worker_on_flaky_source :
  (worker {| w_dbname := "vt_test"; w_mysqld := sample_mysqld;
             w_rp := sample_rp |}
          [source_broken; source_stopped]
          (NewRowcacheInvalidator ∅)).1 = Normal true
  /\ stream_starts
       (trace (worker {| w_dbname := "vt_test"; w_mysqld := sample_mysqld;
                         w_rp := sample_rp |}
                      [source_broken; source_stopped]
                      (NewRowcacheInvalidator ∅)).2)
     = [GTIDval "41983-1-10"; GTIDval "41983-1-10"]
  /\ evs (worker {| w_dbname := "vt_test"; w_mysqld := sample_mysqld;
                    w_rp := sample_rp |}
                 [source_broken; source_stopped]
                 (NewRowcacheInvalidator ∅)).2 = None.
Proof. vm_compute. auto. Qed.

(** X15 on the event whose second row fails at its second value. *)
Lemma handleDmlEvent_first_error_sample :
  PKValues ev_half_decoded
  = [[RawNumber "1"]]
    ++ ([RawNumber "2"]
        ++ RawUnsupported "chan int" :: [RawUnsupported "func()"])
       :: [[RawUnsupported "map[string]int"]]
  /\ Forall2 decodes [[RawNumber "1"]] [[Numeric "1"]]
  /\ decodes [RawNumber "2"] [Numeric "2"]
  /\ BuildValue (RawUnsupported "chan int")
     = RetErr "Unsupported bind variable type chan int"
  /\ handleDmlEvent ev_half_decoded streaming
     = (Normal tt,
        mkState (svm streaming) (workers streaming) (dbname streaming)
                (mysqld streaming) (evs streaming) (lagSeconds streaming)
                (gtid streaming)
                (Counters_Add "Invalidation" 1 (internalErrors streaming))
                (trace streaming
                 ++ [ELog ERROR
                       "Error building invalidation key for %#v: '%v'"
                       [ArgEvent ev_half_decoded;
                        ArgError "Unsupported bind variable type chan int"]])).
Proof.
  assert (H1 : Forall2 decodes [[RawNumber "1"]] [[Numeric "1"]])
    by (repeat constructor).
  assert (H2 : decodes [RawNumber "2"] [Numeric "2"])
    by (repeat constructor).
  split; [reflexivity|]. split; [exact H1|]. split; [exact H2|].
  split; [reflexivity|].
  exact (handleDmlEvent_first_error ev_half_decoded [[RawNumber "1"]]
           [[Numeric "1"]] [RawNumber "2"] [Numeric "2"]
           (RawUnsupported "chan int") [RawUnsupported "func()"]
           [[RawUnsupported "map[string]int"]]
           "Unsupported bind variable type chan int" streaming
           eq_refl H1 H2 eq_refl).
Defined.

(** X16 on three rows, one of them without a key. *)
Lemma dml_keys_in_place_sample :
  dml_loop [[RawNumber "1"]; [RawNil]; [RawNumber "2"]]
           (make0 "" (length [[RawNumber "1"]; [RawNil]; [RawNumber "2"]]))
           (make0 Null 1)
  = RetOk (mkSlice ["1"; "2"; ""] 2, mkSlice [Numeric "2"] 1)
  /\ length (backing (mkSlice ["1"; "2"; ""] 2))
     = length [[RawNumber "1"]; [RawNil]; [RawNumber "2"]]
  /\ (len (mkSlice ["1"; "2"; ""] 2)
      <= length [[RawNumber "1"]; [RawNil]; [RawNumber "2"]])%nat
  /\ (length (elems (mkSlice ["1"; "2"; ""] 2))
      <= length [[RawNumber "1"]; [RawNil]; [RawNumber "2"]])%nat.
Proof.
  split; [reflexivity|].
  exact (dml_keys_in_place [[RawNumber "1"]; [RawNil]; [RawNumber "2"]]
           (mkSlice ["1"; "2"; ""] 2) (make0 Null 1)
           (mkSlice [Numeric "2"] 1) eq_refl).
Defined.
